(** * The actinia process queue: a shallow embedding of
      [actinia_core/resources/common/process_queue.py]

    The module runs one supervisor (the "process queue manager") that polls a
    multiprocessing queue, wraps every submitted job in an [EnqueuedProcess],
    starts waiting jobs while fewer than [NUMBER_OF_WORKERS] run, purges the
    finished ones, terminates the ones that waited longer than their timeout
    and, on the "STOP" message, terminates everything and returns.

    Python code with effects is embedded as functions in an exception-and-state
    monad over a [World]: the OS process table, the resource store behind the
    [ResourceLogger], the clock, and a log of the calls made on the outside
    world.  What the environment decides (clock readings, which jobs exit by
    themselves, which element [set.pop()] returns) is read from oracles stored
    in the [World], so every definition computes. *)

From stdpp Require Import base option list gmap fin_maps strings pretty.
From Stdlib Require Import ZArith.

Local Open Scope Z_scope.
#[local] Set Warnings "-register-all".

(** ** Python numbers

    Timestamps and timeouts are Python floats (or ints).  The model is
    parametric in the number type: only subtraction, [<] and the ["%i"]
    format are used by the code, and nothing proved below depends on how they
    round. *)

Class PyNum (T : Type) := {
  num_sub : T → T → T;
  num_ltb : T → T → bool;
  num_fmt_i : T → string;
}.

#[export] Instance Z_PyNum : PyNum Z := {|
  num_sub := Z.sub;
  num_ltb := Z.ltb;
  num_fmt_i := pretty;
|}.

(** ** Configuration, contexts and Python values *)

(** The two attributes of the global configuration object that the module
    reads.  The object is built by the caller of the manager; both are
    integers. *)
Record Config := {
  NUMBER_OF_WORKERS : Z;
  REDIS_RESOURCE_EXPIRE_TIME : Z;
}.

(** [args[0]] of a job: the object carrying [config], [resource_id] and
    [user_id]. *)
Record Context := {
  ctx_config : Config;
  ctx_resource_id : string;
  ctx_user_id : string;
}.

(** The Python values that travel through the queue and the stored response
    models. *)
Inductive pyval {T : Type} : Type :=
| VNone
| VStr (s : string)
| VNum (x : T)
| VTuple (xs : list pyval)
| VList (xs : list pyval)
| VFunc (f : nat)
| VContext (c : Context).
Arguments pyval : clear implicits.

Inductive exn :=
| TypeError | KeyError | AttributeError | IndexError | ValueError | AssertionError.

Inductive result (A : Type) :=
| Ok (a : A)
| Raise (e : exn).
Arguments Ok {A} a.
Arguments Raise {A} e.

Definition is_Ok {A} (r : result A) : bool :=
  match r with Ok _ => true | Raise _ => false end.

(** *** Operators on values used by the manager *)

(** [sub in s] on two strings. *)
Fixpoint str_contains (sub s : string) : bool :=
  String.prefix sub s ||
  match s with
  | EmptyString => false
  | String _ s' => str_contains sub s'
  end.

(** ["STOP" == v] *)
Definition is_STOP {T} (v : pyval T) : bool :=
  match v with
  | VStr s => bool_decide (s = "STOP")
  | _ => false
  end.

(** ["STOP" in data]: substring test on a string, element test on a tuple or
    list, [TypeError] on a value that is not a container. *)
Definition contains_STOP {T} (data : pyval T) : result bool :=
  match data with
  | VStr s => Ok (str_contains "STOP" s)
  | VTuple xs | VList xs => Ok (existsb is_STOP xs)
  | _ => Raise TypeError
  end.

(** [len(data)] *)
Definition py_len {T} (data : pyval T) : result Z :=
  match data with
  | VStr s => Ok (Z.of_nat (String.length s))
  | VTuple xs | VList xs => Ok (Z.of_nat (length xs))
  | _ => Raise TypeError
  end.

(** The elements of an iterable, as [tuple(v)] lists them. *)
Definition py_iter {T} (v : pyval T) : result (list (pyval T)) :=
  match v with
  | VStr s => Ok ((λ a, VStr (String a EmptyString)) <$> String.list_ascii_of_string s)
  | VTuple xs | VList xs => Ok xs
  | _ => Raise TypeError
  end.

(** [func, timeout, args = data] *)
Definition unpack3 {T} (data : pyval T)
  : result (pyval T * pyval T * pyval T) :=
  match py_iter data with
  | Ok [a; b; c] => Ok (a, b, c)
  | Ok _ => Raise ValueError
  | Raise e => Raise e
  end.

(** [v[0]] *)
Definition py_getitem0 {T} (v : pyval T) : result (pyval T) :=
  match v with
  | VStr _ | VTuple _ | VList _ =>
      match py_iter v with
      | Ok (x :: _) => Ok x
      | Ok [] => Raise IndexError
      | Raise e => Raise e
      end
  | _ => Raise TypeError
  end.

(** Reading [.config], [.resource_id] or [.user_id]: only a context object
    has them. *)
Definition py_context {T} (v : pyval T) : result Context :=
  match v with
  | VContext c => Ok c
  | _ => Raise AttributeError
  end.

(** ** The world outside the manager *)

(** State of the OS process behind a [multiprocessing.Process] handle. *)
Inductive ProcState :=
| Initial
| Alive
| Exited (code : Z).

(** The unpickled content of a stored response: [http_code, response_model]. *)
Record Document {T : Type} := {
  http_code : Z;
  response_model : gmap string (pyval T);
}.
Arguments Document : clear implicits.

(** The record of what the manager did, in order: each entry into
    [EnqueuedProcess.terminate] (where the code prints its message) and each
    call on a process, on the resource logger and on the queue. *)
Inductive Event {T : Type} :=
| EvTerminate (oid : nat) (status message : string)
| EvStart (oid : nat)
| EvKill (oid : nat)
| EvCommitTermination (user_id resource_id : string)
| EvGet (user_id resource_id : string)
| EvCommit (user_id resource_id : string) (doc : Document T) (expiration : Z)
| EvQueueClose.
Arguments Event : clear implicits.

(** What the environment decides: [clock n] and [wall_clock n] are what the
    [n]-th reading of the clock shows to [time.time()] and to
    [str(datetime.now())]; [fate n oid] is the exit code with which the job
    [oid], if it runs, ends by itself during the [n]-th wait of the manager
    ([None]: it keeps running); [pop_choice ids] is the position of the
    element that [set.pop()] takes from a set of wrappers with these
    identities. *)
Record Oracle {T : Type} := {
  clock : nat → T;
  wall_clock : nat → string;
  fate : nat → nat → option Z;
  pop_choice : list nat → nat;
}.
Arguments Oracle : clear implicits.

(** The world: the oracle, how many clock readings and waits there were,
    what [queue.get] returns next ([None] or nothing left for
    [queue.Empty]), the next process handle, the state of the processes,
    the documents the resource logger keeps for (user_id, resource_id) with
    their expiration, and the record of calls. *)
Record World {T : Type} := {
  oracle : Oracle T;
  reads : nat;
  pauses : nat;
  incoming : list (pyval T);
  next_oid : nat;
  procs : gmap nat ProcState;
  store : gmap (string * string) (Document T * Z);
  trace : list (Event T);
}.
Arguments World : clear implicits.

Section Monad.
Context {T : Type}.

Definition set_reads (n : nat) (w : World T) : World T :=
  {| oracle := oracle w; reads := n; pauses := pauses w;
     incoming := incoming w; next_oid := next_oid w; procs := procs w;
     store := store w; trace := trace w |}.
Definition set_pauses (n : nat) (w : World T) : World T :=
  {| oracle := oracle w; reads := reads w; pauses := n;
     incoming := incoming w; next_oid := next_oid w; procs := procs w;
     store := store w; trace := trace w |}.
Definition set_incoming (q : list (pyval T)) (w : World T) : World T :=
  {| oracle := oracle w; reads := reads w; pauses := pauses w;
     incoming := q; next_oid := next_oid w; procs := procs w;
     store := store w; trace := trace w |}.
Definition set_next_oid (n : nat) (w : World T) : World T :=
  {| oracle := oracle w; reads := reads w; pauses := pauses w;
     incoming := incoming w; next_oid := n; procs := procs w;
     store := store w; trace := trace w |}.
Definition set_procs (ps : gmap nat ProcState) (w : World T) : World T :=
  {| oracle := oracle w; reads := reads w; pauses := pauses w;
     incoming := incoming w; next_oid := next_oid w; procs := ps;
     store := store w; trace := trace w |}.
Definition set_store (st : gmap (string * string) (Document T * Z))
    (w : World T) : World T :=
  {| oracle := oracle w; reads := reads w; pauses := pauses w;
     incoming := incoming w; next_oid := next_oid w; procs := procs w;
     store := st; trace := trace w |}.
Definition set_trace (tr : list (Event T)) (w : World T) : World T :=
  {| oracle := oracle w; reads := reads w; pauses := pauses w;
     incoming := incoming w; next_oid := next_oid w; procs := procs w;
     store := store w; trace := tr |}.

(** Computations that may raise and that act on the world.  The world
    reached when an exception is raised is kept: the calls made before
    it have happened. *)
Definition M (A : Type) : Type := World T → result A * World T.

Definition ret {A} (a : A) : M A := λ w, (Ok a, w).

Definition bind {A B} (m : M A) (k : A → M B) : M B :=
  λ w, match m w with
       | (Ok a, w') => k a w'
       | (Raise e, w') => (Raise e, w')
       end.

Definition lift {A} (r : result A) : M A := λ w, (r, w).

Definition emit (e : Event T) : M unit :=
  λ w, (Ok tt, set_trace (trace w ++ [e]) w).
End Monad.
Arguments M : clear implicits.

Declare Scope py_scope.
Delimit Scope py_scope with py.
Notation "x <- c1 ;; c2" := (bind c1 (λ x, c2))
  (at level 100, c1 at next level, right associativity) : py_scope.
Notation "c1 ;;; c2" := (bind c1 (λ _, c2))
  (at level 100, right associativity) : py_scope.
Local Open Scope py_scope.

Fixpoint for_each {T A} (l : list A) (body : A → M T unit) : M T unit :=
  match l with
  | [] => ret tt
  | x :: l' => body x ;;; for_each l' body
  end.

(** ** The standard library calls the module makes *)

Section Primitives.
Context {T : Type}.

(** [time.time()] *)
Definition time_time : M T T :=
  λ w, (Ok (clock (oracle w) (reads w)), set_reads (S (reads w)) w).

(** [str(datetime.now())] *)
Definition datetime_now : M T string :=
  λ w, (Ok (wall_clock (oracle w) (reads w)), set_reads (S (reads w)) w).

(** While the manager waits, a job that runs may end by itself. *)
Definition settle (f : nat → option Z) (ps : gmap nat ProcState)
  : gmap nat ProcState :=
  map_imap
    (λ oid st,
       Some match st with
            | Alive => match f oid with Some c => Exited c | None => Alive end
            | _ => st
            end) ps.

Definition pause : M T unit :=
  λ w, (Ok tt,
        set_pauses (S (pauses w))
          (set_procs (settle (fate (oracle w) (pauses w)) (procs w)) w)).

(** [time.sleep(1)] *)
Definition time_sleep : M T unit := pause.

(** [queue.get(block=True, timeout=1)], with [queue.Empty] mapped to [None]
    as the manager does. *)
Definition queue_get : M T (pyval T) :=
  pause ;;;
  λ w, match incoming w with
       | [] => (Ok VNone, w)
       | data :: q => (Ok data, set_incoming q w)
       end.

(** [queue.close()] *)
Definition queue_close : M T unit := emit EvQueueClose.

(** *** [multiprocessing.Process] *)

Definition proc_state (w : World T) (oid : nat) : ProcState :=
  default Initial (procs w !! oid).

(** [Process(target=func, args=args)]: a new handle, nothing runs yet.
    [tuple(args)] is taken by the constructor. *)
Definition Process_new (args : pyval T) : M T nat :=
  _ <- lift (py_iter args) ;;
  λ w, (Ok (next_oid w),
        set_next_oid (S (next_oid w))
          (set_procs (<[next_oid w := Initial]> (procs w)) w)).

(** [process.start()]: a handle is started once. *)
Definition Process_start (oid : nat) : M T unit :=
  λ w, match proc_state w oid with
       | Initial =>
           (Ok tt, set_trace (trace w ++ [EvStart oid])
                     (set_procs (<[oid := Alive]> (procs w)) w))
       | _ => (Raise AssertionError, w)
       end.

(** [process.exitcode] *)
Definition Process_exitcode (oid : nat) : M T (option Z) :=
  λ w, (Ok match proc_state w oid with Exited c => Some c | _ => None end, w).

(** [process.is_alive()] *)
Definition Process_is_alive (oid : nat) : M T bool :=
  λ w, (Ok match proc_state w oid with Alive => true | _ => false end, w).

(** [process.terminate()]: SIGTERM to a running job (exit code -15). *)
Definition Process_terminate (oid : nat) : M T unit :=
  λ w, match proc_state w oid with
       | Initial => (Raise AttributeError, w)
       | Alive =>
           (Ok tt, set_trace (trace w ++ [EvKill oid])
                     (set_procs (<[oid := Exited (-15)]> (procs w)) w))
       | Exited _ => (Ok tt, w)
       end.

End Primitives.

(** ** The resource logger

    [ResourceLogger] lives in [resources_logger.py]; the module only calls
    three of its methods.  They are taken to return normally: failures of
    the database behind them are not part of the model. *)
Module ResourceLogger.
Section Methods.
Context {T : Type}.

(** Modelled from the spec: [ResourceLogger.commit_termination] is not part
    of this file; it writes the advisory "termination requested" marker for
    (user_id, resource_id). *)
Definition commit_termination (user_id resource_id : string) : M T unit :=
  emit (EvCommitTermination user_id resource_id).

(** Modelled from the spec: [ResourceLogger.get] is not part of this file;
    it returns the document stored for (user_id, resource_id), or [None]. *)
Definition get (user_id resource_id : string) : M T (option (Document T)) :=
  emit (EvGet user_id resource_id) ;;;
  λ w, (Ok (fst <$> store w !! (user_id, resource_id)), w).

(** Modelled from the spec: [ResourceLogger.commit] is not part of this
    file; it stores the document for (user_id, resource_id) with the given
    expiration. *)
Definition commit (user_id resource_id : string) (document : Document T)
    (expiration : Z) : M T unit :=
  emit (EvCommit user_id resource_id document expiration) ;;;
  λ w, (Ok tt,
        set_store (<[(user_id, resource_id) := (document, expiration)]> (store w)) w).

End Methods.
End ResourceLogger.

(** ** [class EnqueuedProcess] *)

(** The wrapper object.  [process] is the handle of its
    [multiprocessing.Process]; it also stands for the identity of the
    wrapper, which is what the manager's sets hash on. *)
Record EnqueuedProcess {T : Type} := {
  process : nat;
  timeout : pyval T;
  config : Config;
  resource_id : string;
  user_id : string;
  init_time : T;
  started : bool;
}.
Arguments EnqueuedProcess : clear implicits.

Definition set_started {T} (b : bool) (self : EnqueuedProcess T)
  : EnqueuedProcess T :=
  {| process := process self; timeout := timeout self; config := config self;
     resource_id := resource_id self; user_id := user_id self;
     init_time := init_time self; started := b |}.

(** [a - b] on two stored values *)
Definition py_sub {T} `{PyNum T} (a b : pyval T) : result (pyval T) :=
  match a, b with
  | VNum x, VNum y => Ok (VNum (num_sub x y))
  | _, _ => Raise TypeError
  end.

(** [d[key]] on a dict *)
Definition py_dict_get {T} (key : string) (d : gmap string (pyval T))
  : result (pyval T) :=
  match d !! key with
  | Some v => Ok v
  | None => Raise KeyError
  end.

Definition terminated_by_server (message : string) : string :=
  "The process was terminated by the server: " +:+ message.

Definition timeout_message {T} `{PyNum T} (t : T) : string :=
  "Processes exceeded timeout (" +:+ num_fmt_i t +:+
  ") in waiting queue and was terminated.".

Definition exit_message (code : Z) : string :=
  "The process unexpectedly terminated with exit code " +:+ pretty code.

Section EnqueuedProcess.
Context {T : Type} `{PyNum T}.

(** [EnqueuedProcess.__init__] *)
Definition EnqueuedProcess_init (func timeout args : pyval T)
  : M T (EnqueuedProcess T) :=
  oid <- Process_new args ;;
  a0 <- lift (py_getitem0 args) ;;
  c <- lift (py_context a0) ;;
  t <- time_time ;;
  ret {| process := oid; timeout := timeout; config := ctx_config c;
         resource_id := ctx_resource_id c; user_id := ctx_user_id c;
         init_time := t; started := false |}.

(** [EnqueuedProcess.start]: the wrapper with [started] set is returned. *)
Definition start (self : EnqueuedProcess T) : M T (EnqueuedProcess T) :=
  let self := set_started true self in
  Process_start (process self) ;;;
  ret self.

(** [EnqueuedProcess._send_resource_update].  [pickle.loads] and
    [pickle.dumps] are the identity on the decoded document. *)
Definition _send_resource_update (self : EnqueuedProcess T)
    (status message : string) : M T unit :=
  response_data <- ResourceLogger.get (user_id self) (resource_id self) ;;
  match response_data with
  | Some doc =>
      let response_model := response_model doc in
      let response_model := <["status" := VStr status]> response_model in
      let response_model :=
        <["message" := VStr (terminated_by_server message)]> response_model in
      orig_time <- lift (py_dict_get "accept_timestamp" response_model) ;;
      now <- time_time ;;
      let response_model := <["timestamp" := VNum now]> response_model in
      dt <- datetime_now ;;
      let response_model := <["datetime" := VStr dt]> response_model in
      delta <- lift (py_sub (VNum now) orig_time) ;;
      let response_model := <["time_delta" := delta]> response_model in
      ResourceLogger.commit (user_id self) (resource_id self)
        {| http_code := http_code doc; response_model := response_model |}
        (REDIS_RESOURCE_EXPIRE_TIME (config self))
  | None => ret tt
  end.

(** [EnqueuedProcess.terminate] *)
Definition terminate (self : EnqueuedProcess T) (status message : string)
  : M T unit :=
  emit (EvTerminate (process self) status message) ;;;
  ResourceLogger.commit_termination (user_id self) (resource_id self) ;;;
  time_sleep ;;;
  alive <- Process_is_alive (process self) ;;
  (if alive then Process_terminate (process self) else ret tt) ;;;
  _send_resource_update self status message.

(** [EnqueuedProcess.is_alive] *)
Definition is_alive (self : EnqueuedProcess T) : M T bool :=
  Process_is_alive (process self).

(** [EnqueuedProcess.exitcode] *)
Definition exitcode (self : EnqueuedProcess T) : M T (option Z) :=
  Process_exitcode (process self).

(** [EnqueuedProcess.check_timeout] *)
Definition check_timeout (self : EnqueuedProcess T) : M T bool :=
  if negb (started self) then
    current_time <- time_time ;;
    let diff := num_sub current_time (init_time self) in
    match timeout self with
    | VNum t =>
        if num_ltb t diff then
          terminate self "timeout" (timeout_message t) ;;;
          ret true
        else ret false
    | _ => lift (Raise TypeError)
    end
  else ret false.

(** [EnqueuedProcess.check_exit] *)
Definition check_exit (self : EnqueuedProcess T) : M T unit :=
  code <- Process_exitcode (process self) ;;
  match code with
  | Some c =>
      if bool_decide (c ≠ 0) then
        _send_resource_update self "error" (exit_message c)
      else ret tt
  | None => ret tt
  end.

End EnqueuedProcess.

(** ** The sets of the manager

    [running_procs] and [waiting_processes] are Python sets of wrapper
    objects, hashed on identity.  A set is a list of its elements in the
    order the set iterates them; [add] and [remove] go by identity, so a set
    built by them never holds an object twice. *)

Section Sets.
Context {T : Type}.

Definition same_object (p q : EnqueuedProcess T) : Prop :=
  process p = process q.

#[export] Instance same_object_dec (p q : EnqueuedProcess T)
  : Decision (same_object p q) :=
  decide (process p = process q).

(** [p in s] *)
Definition set_mem (p : EnqueuedProcess T) (s : list (EnqueuedProcess T)) : bool :=
  bool_decide (Exists (same_object p) s).

(** [s.add(p)] *)
Definition set_add (p : EnqueuedProcess T) (s : list (EnqueuedProcess T))
  : list (EnqueuedProcess T) :=
  if set_mem p s then s else s ++ [p].

(** [s.remove(p)]: [KeyError] when [p] is not in [s]. *)
Definition set_remove (p : EnqueuedProcess T) (s : list (EnqueuedProcess T))
  : result (list (EnqueuedProcess T)) :=
  if set_mem p s then Ok (filter (λ q, ¬ same_object p q) s)
  else Raise KeyError.

(** [s.pop()]: removes and returns an element of the set, which one is up to
    the set; [KeyError] on the empty set. *)
Definition set_pop (s : list (EnqueuedProcess T))
  : M T (EnqueuedProcess T * list (EnqueuedProcess T)) :=
  λ w, let i := (pop_choice (oracle w) (process <$> s) `mod` length s)%nat in
       match s !! i with
       | Some p => (Ok (p, delete i s), w)
       | None => (Raise KeyError, w)
       end.

(** [for x in l: if test(x): procs_to_remove.append(x)] *)
Fixpoint select {A} (l : list A) (test : A → M T bool) : M T (list A) :=
  match l with
  | [] => ret []
  | x :: l' =>
      b <- test x ;;
      rest <- select l' test ;;
      ret (if b then x :: rest else rest)
  end.

(** [for enqproc in procs_to_remove: s.remove(enqproc)] *)
Fixpoint remove_all (procs_to_remove s : list (EnqueuedProcess T))
  : M T (list (EnqueuedProcess T)) :=
  match procs_to_remove with
  | [] => ret s
  | enqproc :: rest =>
      s' <- lift (set_remove enqproc s) ;;
      remove_all rest s'
  end.

End Sets.

(** ** The producers *)

Section Producers.
Context {T : Type}.

(** The message [enqueue_job(timeout, func, *args)] puts on the queue. *)
Definition job_message (timeout func : pyval T) (args : list (pyval T))
  : pyval T :=
  VTuple [func; timeout; VTuple args].

Definition queue_put (data : pyval T) : M T unit :=
  λ w, (Ok tt, set_incoming (incoming w ++ [data]) w).

(** [enqueue_job] *)
Definition enqueue_job (timeout func : pyval T) (args : list (pyval T))
  : M T unit :=
  queue_put (job_message timeout func args).

(** The message [stop_process_queue()] puts on the queue. *)
Definition stop_message : pyval T := VStr "STOP".

End Producers.

(** ** [start_process_queue_manager] *)

(** How an iteration of [while True] ends: by falling through to the next
    one, or by the [return] of the STOP branch. *)
Inductive Flow := Continue | Return.

Definition running_shutdown_message : string :=
  "Running process was terminated by server shutdown.".
Definition waiting_shutdown_message : string :=
  "Waiting process was terminated by server shutdown.".

Section Manager.
Context {T : Type} `{PyNum T}.

#[local] Abbreviation procset := (list (EnqueuedProcess T)).

(** [data is not None and "STOP" in data] *)
Definition is_stop_command (data : pyval T) : result bool :=
  match data with
  | VNone => Ok false
  | _ => contains_STOP data
  end.

(** [data is not None and len(data) == 3] *)
Definition is_submission (data : pyval T) : result bool :=
  match data with
  | VNone => Ok false
  | _ => match py_len data with
         | Ok n => Ok (n =? 3)
         | Raise e => Raise e
         end
  end.

(** The STOP branch, up to its [return]. *)
Definition shutdown (running_procs waiting_processes : procset) : M T unit :=
  for_each running_procs
    (λ enqproc, terminate enqproc "error" running_shutdown_message) ;;;
  for_each waiting_processes
    (λ enqproc, terminate enqproc "error" waiting_shutdown_message) ;;;
  queue_close.

(** The submission branch. *)
Definition submit (data : pyval T) (waiting_processes : procset)
  : M T procset :=
  fta <- lift (unpack3 data) ;;
  let '(func, timeout, args) := fta in
  enqproc <- EnqueuedProcess_init func timeout args ;;
  ret (set_add enqproc waiting_processes).

(** The admission step.  The wrapper is added to [running_procs] and then
    started; the set holds the object itself, so what it holds afterwards is
    the started wrapper. *)
Definition admission (config : Config)
    (running_procs waiting_processes : procset) : M T (procset * procset) :=
  if Z.of_nat (length running_procs) <? NUMBER_OF_WORKERS config then
    if 0 <? Z.of_nat (length waiting_processes) then
      popped <- set_pop waiting_processes ;;
      let '(enqproc, waiting_processes) := popped in
      enqproc <- start enqproc ;;
      ret (set_add enqproc running_procs, waiting_processes)
    else ret (running_procs, waiting_processes)
  else ret (running_procs, waiting_processes).

(** The test of the first purge: [started is True and exitcode() is not
    None]. *)
Definition finished (enqproc : EnqueuedProcess T) : M T bool :=
  code <- exitcode enqproc ;;
  ret (started enqproc && bool_decide (code ≠ None)).

(** Purge of the processes that have finished. *)
Definition reap (running_procs : procset) : M T procset :=
  procs_to_remove <- select running_procs finished ;;
  remove_all procs_to_remove running_procs.

(** Purge of the processes that waited longer than their timeout. *)
Definition evict (waiting_processes : procset) : M T procset :=
  procs_to_remove <- select waiting_processes check_timeout ;;
  remove_all procs_to_remove waiting_processes.

(** The body of [while True] from the dispatch on [data] up to and including
    the admission step. *)
Definition dispatch_then_admission (config : Config) (data : pyval T)
    (running_procs waiting_processes : procset)
  : M T (Flow * (procset * procset)) :=
  stop <- lift (is_stop_command data) ;;
  if stop : bool then
    shutdown running_procs waiting_processes ;;;
    ret (Return, (running_procs, waiting_processes))
  else
    sub <- lift (is_submission data) ;;
    waiting_processes <-
      (if sub : bool then submit data waiting_processes
       else ret waiting_processes) ;;
    sets <- admission config running_procs waiting_processes ;;
    ret (Continue, sets).

(** The body of [while True], after [queue.get]. *)
Definition loop_body (config : Config) (data : pyval T)
    (running_procs waiting_processes : procset)
  : M T (Flow * (procset * procset)) :=
  r <- dispatch_then_admission config data running_procs waiting_processes ;;
  match r with
  | (Return, sets) => ret (Return, sets)
  | (Continue, (running_procs, waiting_processes)) =>
      running_procs <- reap running_procs ;;
      waiting_processes <- evict waiting_processes ;;
      ret (Continue, (running_procs, waiting_processes))
  end.

(** [fuel] iterations of [while True]. *)
Fixpoint manager_loop (config : Config) (fuel : nat)
    (running_procs waiting_processes : procset)
  : M T (Flow * (procset * procset)) :=
  match fuel with
  | O => ret (Continue, (running_procs, waiting_processes))
  | S fuel' =>
      data <- queue_get ;;
      r <- loop_body config data running_procs waiting_processes ;;
      match r with
      | (Return, sets) => ret (Return, sets)
      | (Continue, (running_procs, waiting_processes)) =>
          manager_loop config fuel' running_procs waiting_processes
      end
  end.

(** [try: ... finally: handler] *)
Definition finally {A} (body : M T A) (handler : M T unit) : M T A :=
  λ w, match body w with
       | (r, w') =>
           match handler w' with
           | (Ok _, w'') => (r, w'')
           | (Raise e, w'') => (Raise e, w'')
           end
       end.

(** The manager, run for at most [fuel] iterations: both sets start empty,
    and the queue is closed on every way out. *)
Definition start_process_queue_manager (config : Config) (fuel : nat)
  : M T (Flow * (procset * procset)) :=
  finally (manager_loop config fuel [] []) queue_close.

End Manager.

(** ** [class StreamToLogger]

    The object put in place of [sys.stdout] and [sys.stderr].  A Python
    string is the list of its code points here, because [write] looks at
    the characters; a call [logger.log(level, line)] is recorded by adding
    the line to the log of calls. *)

Record StreamToLogger := {
  logger : string;
  log_level : Z;
  linebuf : list N;
}.

Record LogCall := {
  call_logger : string;
  call_level : Z;
  call_message : list N;
}.

(** The characters [str.rstrip()] strips (those of [str.isspace]): U+0009
    to U+000D, U+001C to U+001F, U+0020, U+0085, U+00A0, U+1680, U+2000 to
    U+200A, U+2028, U+2029, U+202F, U+205F and U+3000. *)
Definition is_space (c : N) : bool :=
  ((9 <=? c) && (c <=? 13) || (28 <=? c) && (c <=? 31) || (c =? 32)
   || (c =? 133) || (c =? 160) || (c =? 5760)
   || (8192 <=? c) && (c <=? 8202)
   || (c =? 8232) || (c =? 8233) || (c =? 8239) || (c =? 8287)
   || (c =? 12288))%N.

(** The line boundaries of [str.splitlines()]: \n, \v, \f, \r, U+001C,
    U+001D, U+001E, U+0085, U+2028 and U+2029. *)
Definition is_linebreak (c : N) : bool :=
  ((10 <=? c) && (c <=? 13) || (28 <=? c) && (c <=? 30) || (c =? 133)
   || (c =? 8232) || (c =? 8233))%N.

(** [s.rstrip()] *)
Fixpoint rstrip (s : list N) : list N :=
  match s with
  | [] => []
  | c :: s' =>
      match rstrip s' with
      | [] => if is_space c then [] else [c]
      | r => c :: r
      end
  end.

(** [s.splitlines()], reading [s] from the left; [after_cr] says that the
    character before was a \r, so that a \n coming now belongs to the same
    line boundary.  A text that ends with a line boundary has no empty last
    line. *)
Fixpoint splitlines_from (after_cr : bool) (s : list N) : list (list N) :=
  match s with
  | [] => []
  | c :: s' =>
      if after_cr && (c =? 10)%N then splitlines_from false s'
      else if is_linebreak c then [] :: splitlines_from (c =? 13)%N s'
      else match splitlines_from false s' with
           | [] => [[c]]
           | line :: lines => (c :: line) :: lines
           end
  end.

Definition splitlines (s : list N) : list (list N) := splitlines_from false s.

(** [StreamToLogger.write] *)
Definition write (self : StreamToLogger) (buf : list N) (log : list LogCall)
  : list LogCall :=
  log ++ ((λ line, {| call_logger := logger self;
                      call_level := log_level self;
                      call_message := rstrip line |})
            <$> splitlines (rstrip buf)).

(** [StreamToLogger.flush] *)
Definition flush (self : StreamToLogger) (log : list LogCall) : list LogCall :=
  log.

(** * Vocabulary of the properties *)

(** ** Reading a world after a call *)

(** The calls of [EnqueuedProcess.terminate] recorded in a trace. *)
Definition terminate_calls {T} (tr : list (Event T))
  : list (nat * string * string) :=
  omap (λ e, match e with
             | EvTerminate oid status message => Some (oid, status, message)
             | _ => None
             end) tr.

(** Calls on the resource logger: neither a wrapper method, nor a process
    call, nor a queue call. *)
Definition logger_event {T} (e : Event T) : Prop :=
  match e with
  | EvCommitTermination _ _ | EvGet _ _ | EvCommit _ _ _ _ => True
  | _ => False
  end.

(** Calls that are not a call of [terminate], [start] or [queue.close]. *)
Definition quiet_event {T} (e : Event T) : Prop :=
  match e with
  | EvTerminate _ _ _ | EvStart _ | EvQueueClose => False
  | _ => True
  end.

(** The [accept_timestamp] of a stored document, when it is a number. *)
Definition accept_timestamp {T} (d : Document T) : option T :=
  match response_model d !! "accept_timestamp" with
  | Some (VNum t0) => Some t0
  | _ => None
  end.

(** Every stored document carries a numeric [accept_timestamp]. *)
Definition store_ok {T} (w : World T) : Prop :=
  map_Forall (λ _ de, is_Some (accept_timestamp de.1)) (store w).

(** The response model [_send_resource_update] writes back. *)
Definition updated_model {T} `{PyNum T} (m : gmap string (pyval T))
    (status message : string) (now : T) (dt : string) (t0 : T)
  : gmap string (pyval T) :=
  <["time_delta" := VNum (num_sub now t0)]>
    (<["datetime" := VStr dt]>
       (<["timestamp" := VNum now]>
          (<["message" := VStr (terminated_by_server message)]>
             (<["status" := VStr status]> m)))).

Definition updated_document {T} `{PyNum T} (d : Document T)
    (status message : string) (now : T) (dt : string) (t0 : T) : Document T :=
  {| http_code := http_code d;
     response_model := updated_model (response_model d) status message now dt t0 |}.

(** Calls that are neither a [start] nor a [queue.close]. *)
Definition no_start_no_close {T} (e : Event T) : Prop :=
  match e with
  | EvStart _ | EvQueueClose => False
  | _ => True
  end.

(** The exit code the manager reads from the process of a wrapper. *)
Definition exit_code {T} (w : World T) (p : EnqueuedProcess T) : option Z :=
  match proc_state w (process p) with
  | Exited c => Some c
  | _ => None
  end.

(** What a call of [_send_resource_update] does, given how the supplied
    message appears in the stored document ([shown message]): nothing is
    stored when no document is; otherwise the stored document is replaced,
    with the configured expiration, by one with the new status, message,
    timestamp, datetime and time delta. *)
Definition final_update_spec {T} `{PyNum T} (shown : string → string)
    (self : EnqueuedProcess T) (status message : string) (w : World T) : Prop :=
  let key := (user_id self, resource_id self) in
  let r := _send_resource_update self status message w in
  match store w !! key with
  | None => r.1 = Ok tt ∧ store r.2 = store w
  | Some (d, _) =>
      ∀ t0, accept_timestamp d = Some t0 →
      ∃ d' now dt,
        r.1 = Ok tt
        ∧ store r.2 !! key = Some (d', REDIS_RESOURCE_EXPIRE_TIME (config self))
        ∧ now = clock (oracle w) (reads w)
        ∧ dt = wall_clock (oracle w) (S (reads w))
        ∧ response_model d' !! "status" = Some (VStr status)
        ∧ response_model d' !! "message" = Some (VStr (shown message))
        ∧ response_model d' !! "timestamp" = Some (VNum now)
        ∧ response_model d' !! "datetime" = Some (VStr dt)
        ∧ response_model d' !! "time_delta" = Some (VNum (num_sub now t0))
        ∧ response_model d' !! "accept_timestamp" = Some (VNum t0)
  end.

(** [w'] has the process handles of [w], and every process not yet started
    in [w] is not started in [w']. *)
Definition frame {T} (w w' : World T) : Prop :=
  next_oid w' = next_oid w
  ∧ ∀ oid, proc_state w oid = Initial → proc_state w' oid = Initial.

(** A computation that starts no process and makes no handle. *)
Definition framed {T A} (m : M T A) : Prop :=
  ∀ w r w', m w = (r, w') → frame w w'.

(** The two sets hold distinct wrappers, all made before [next_oid], and
    the waiting ones are not started. *)
Definition sets_inv {T} (running waiting : list (EnqueuedProcess T))
    (w : World T) : Prop :=
  NoDup (process <$> (running ++ waiting))
  ∧ Forall (λ p, (process p < next_oid w)%nat) (running ++ waiting)
  ∧ Forall (λ p, started p = false ∧ proc_state w (process p) = Initial)
      waiting.

Create HintDb framed.

(** Projections of the record of calls. *)
Definition started_processes {T} (tr : list (Event T)) : list nat :=
  omap (λ e, match e with EvStart oid => Some oid | _ => None end) tr.

Definition killed_processes {T} (tr : list (Event T)) : list nat :=
  omap (λ e, match e with EvKill oid => Some oid | _ => None end) tr.

Definition queue_closes {T} (tr : list (Event T)) : nat :=
  length (omap (λ e, match e with EvQueueClose => Some tt | _ => None end) tr).

(** ** Example data *)

(** A small world for examples: the clock shows 1000, 1001, ...; one job
    of user "u" for resource "r" was accepted at time 100. *)
Definition example_config : Config :=
  {| NUMBER_OF_WORKERS := 2; REDIS_RESOURCE_EXPIRE_TIME := 864000 |}.

Definition example_context (resource : string) : Context :=
  {| ctx_config := example_config; ctx_resource_id := resource;
     ctx_user_id := "u" |}.

Definition example_oracle : Oracle Z :=
  {| clock := λ n, 1000 + Z.of_nat n;
     wall_clock := λ n, "2018-05-02 10:36:43." +:+ pretty n;
     fate := λ _ _, None;
     pop_choice := λ _, 0%nat |}.

Definition example_document : Document Z :=
  {| http_code := 200;
     response_model :=
       {[ "status" := VStr "running"; "message" := VStr "Running executable";
          "accept_timestamp" := VNum 100; "timestamp" := VNum 130;
          "datetime" := VStr "2018-05-02 10:22:13.000000";
          "time_delta" := VNum 30 ]} |}.

Definition example_world : World Z :=
  {| oracle := example_oracle; reads := 0; pauses := 0; incoming := [];
     next_oid := 1; procs := {[ 0%nat := Initial ]};
     store := {[ ("u", "r") := (example_document, 864000) ]};
     trace := [] |}.

Definition example_wrapper : EnqueuedProcess Z :=
  {| process := 0; timeout := VNum 10; config := example_config;
     resource_id := "r"; user_id := "u"; init_time := 900;
     started := false |}.

(** [enqueue_job("STOP", func, context)] *)
Definition stop_timeout_job : pyval Z :=
  job_message (VStr "STOP") (VFunc 0) [VContext (example_context "r")].

(** Two workers, four jobs submitted one per iteration, and the two running
    jobs end while the manager waits for its fifth message. *)
Definition busy_oracle : Oracle Z :=
  {| clock := λ n, 1000 + Z.of_nat n;
     wall_clock := λ n, "2018-05-02 10:36:43." +:+ pretty n;
     fate := λ n _, if (n =? 4)%nat then Some 0 else None;
     pop_choice := λ _, 0%nat |}.

Definition example_job (resource : string) : pyval Z :=
  job_message (VNum 10) (VFunc 0) [VContext (example_context resource)].

Definition busy_world : World Z :=
  {| oracle := busy_oracle; reads := 0; pauses := 0;
     incoming := [example_job "a"; example_job "b"; example_job "c";
                  example_job "d"];
     next_oid := 0; procs := ∅; store := ∅; trace := [] |}.

(** The state after five iterations on [busy_world], and the sixth
    iteration up to its admission step. *)
Definition sets_of {T} (r : result (Flow * (list (EnqueuedProcess T)
                                           * list (EnqueuedProcess T))) * World T)
  : list (EnqueuedProcess T) * list (EnqueuedProcess T) :=
  match r.1 with
  | Ok (_, sets) => sets
  | Raise _ => ([], [])
  end.

Definition busy_5 := manager_loop example_config 5 [] [] busy_world.
Definition busy_6 :=
  dispatch_then_admission example_config VNone (sets_of busy_5).1 (sets_of busy_5).2
    (queue_get busy_5.2).2.

(** Two running wrappers, the first ended with exit code 1, the second
    still running: the purge removes the first and writes nothing. *)
Definition reap_world : World Z :=
  set_procs {[ 0%nat := Exited 1; 1%nat := Alive ]} example_world.

Definition reap_running : list (EnqueuedProcess Z) :=
  [ set_started true example_wrapper;
    {| process := 1; timeout := VNum 10; config := example_config;
       resource_id := "s"; user_id := "u"; init_time := 950;
       started := true |} ].

(** ** Further vocabulary *)

(** The fields of a response model that the final status update writes. *)
Definition updated_fields : list string :=
  ["status"; "message"; "timestamp"; "datetime"; "time_delta"].

(** The manager has left its loop: by the [return] of the STOP branch or by
    an exception. *)
Definition ended {A} (res : result (Flow * A)) : Prop :=
  match res with
  | Ok (Continue, _) => False
  | _ => True
  end.

(** A stored document without [accept_timestamp]. *)
Definition broken_document : Document Z :=
  {| http_code := 200;
     response_model := {[ "status" := VStr "accepted" ]} |}.

Definition broken_world : World Z :=
  set_store {[ ("u", "r") := (broken_document, 864000) ]} example_world.

(** The example wrapper started, with its process running. *)
Definition alive_world : World Z :=
  set_procs {[ 0%nat := Alive ]} example_world.

(** A number and a job in the queue. *)
Definition number_world : World Z :=
  set_incoming [VNum 5; example_job "a"] example_world.

(** The message with which [check_timeout] terminates a wrapper. *)
Definition timeout_text {T} `{PyNum T} (p : EnqueuedProcess T) : string :=
  match timeout p with
  | VNum t => timeout_message t
  | _ => ""
  end.

(** At some clock reading taken between [w] and [w'], the wrapper had
    waited longer than its timeout ([late = true]) or had not
    ([late = false]). *)
Definition waited {T} `{PyNum T} (late : bool) (w w' : World T)
    (p : EnqueuedProcess T) : Prop :=
  ∃ n t, (reads w ≤ n < reads w')%nat
         ∧ timeout p = VNum t
         ∧ num_ltb t (num_sub (clock (oracle w) n) (init_time p)) = late.

(** [w'] follows [w] by calls that start no process and make no handle:
    same oracle, clock read on, same handles, same processes started so
    far, and every process is started in [w'] exactly if it is in [w]. *)
Definition steady {T} (w w' : World T) : Prop :=
  oracle w' = oracle w
  ∧ (reads w ≤ reads w')%nat
  ∧ next_oid w' = next_oid w
  ∧ started_processes (trace w') = started_processes (trace w)
  ∧ (∀ oid, proc_state w oid = Initial → proc_state w' oid = Initial)
  ∧ (∀ oid, proc_state w oid ≠ Initial → proc_state w' oid ≠ Initial).

Definition steadied {T A} (m : M T A) : Prop :=
  ∀ w r w', m w = (r, w') → steady w w'.

(** The processes started so far are distinct, have a handle the manager
    made, and are no longer in their initial state. *)
Definition starts_inv {T} (w : World T) : Prop :=
  NoDup (started_processes (trace w))
  ∧ Forall (λ oid, (oid < next_oid w)%nat ∧ proc_state w oid ≠ Initial)
      (started_processes (trace w)).

Create HintDb steadied.

(** The stream that [create_stderr_stdout_logger] puts in place of
    [sys.stdout]: logger "stdout_logger", level [logging.INFO]. *)
Definition stdout_stream : StreamToLogger :=
  {| logger := "stdout_logger"; log_level := 20; linebuf := [] |}.

(** The code points of "job 1 " followed by a tab and a newline, and of
    "job 1". *)
Definition job_text : list N := [106; 111; 98; 32; 49]%N.

(** * Properties *)

Ltac run := unfold bind, ret, lift, emit; cbn.

Section StatusUpdate.
Context {T : Type} `{PyNum T}.

Lemma accept_timestamp_Some (d : Document T) t0 :
  accept_timestamp d = Some t0 →
  response_model d !! "accept_timestamp" = Some (VNum t0).
Proof.
  unfold accept_timestamp.
  destruct (response_model d !! "accept_timestamp") as [[]|]; congruence.
Qed.

Lemma accept_timestamp_updated (d : Document T) status message now dt t0 :
  accept_timestamp (updated_document d status message now dt t0)
  = accept_timestamp d.
Proof.
  unfold accept_timestamp, updated_document, updated_model; cbn.
  by rewrite !lookup_insert_ne.
Qed.

(** Without a stored document the update only asks the logger. *)
Lemma send_resource_update_None (self : EnqueuedProcess T) status message w :
  store w !! (user_id self, resource_id self) = None →
  _send_resource_update self status message w
  = (Ok tt, set_trace (trace w ++ [EvGet (user_id self) (resource_id self)]) w).
Proof.
  intros Hnone. unfold _send_resource_update, ResourceLogger.get. run.
  by rewrite Hnone.
Qed.

(** With a stored document the update writes the mutated document back. *)
Lemma send_resource_update_Some (self : EnqueuedProcess T) status message w d e t0 :
  store w !! (user_id self, resource_id self) = Some (d, e) →
  accept_timestamp d = Some t0 →
  let d' := updated_document d status message
              (clock (oracle w) (reads w))
              (wall_clock (oracle w) (S (reads w))) t0 in
  let ttl := REDIS_RESOURCE_EXPIRE_TIME (config self) in
  _send_resource_update self status message w
  = (Ok tt,
     set_store (<[(user_id self, resource_id self) := (d', ttl)]> (store w))
       (set_trace (trace w ++ [EvGet (user_id self) (resource_id self);
                               EvCommit (user_id self) (resource_id self) d' ttl])
          (set_reads (S (S (reads w))) w))).
Proof.
  intros Hsome Hacc%accept_timestamp_Some.
  unfold _send_resource_update, ResourceLogger.get, ResourceLogger.commit.
  run. rewrite Hsome. cbn. unfold py_dict_get.
  rewrite !lookup_insert_ne by done. rewrite Hacc. cbn.
  unfold set_store, set_trace, set_reads; cbn.
  by rewrite <- app_assoc.
Qed.

End StatusUpdate.

#[local] Arguments _send_resource_update : simpl never.
#[local] Arguments terminate : simpl never.

Section Terminate.
Context {T : Type} `{PyNum T}.

Lemma logger_event_quiet (e : Event T) : logger_event e → quiet_event e.
Proof. by destruct e. Qed.

Lemma store_ok_lookup (w : World T) k d e :
  store_ok w → store w !! k = Some (d, e) → ∃ t0, accept_timestamp d = Some t0.
Proof. intros Hok Hk. by destruct (Hok k (d, e) Hk) as [t0 Ht0]; exists t0. Qed.

(** The final status update never raises on a well-formed store, talks to
    the logger only and leaves the processes alone. *)
Lemma send_resource_update_run (self : EnqueuedProcess T) status message w :
  store_ok w →
  ∃ w' evs,
    _send_resource_update self status message w = (Ok tt, w')
    ∧ trace w' = trace w ++ EvGet (user_id self) (resource_id self) :: evs
    ∧ Forall logger_event evs
    ∧ store_ok w' ∧ procs w' = procs w.
Proof.
  intros Hok.
  destruct (store w !! (user_id self, resource_id self)) as [[d e]|] eqn:Hk.
  - destruct (store_ok_lookup _ _ _ _ Hok Hk) as [t0 Ht0].
    rewrite (send_resource_update_Some _ _ _ _ _ _ _ Hk Ht0).
    eexists _, [_]. split; [reflexivity|]. cbn. repeat split.
    + by repeat constructor.
    + unfold store_ok; cbn. apply map_Forall_insert_2; [|done]. cbn.
      rewrite accept_timestamp_updated, Ht0. by eexists.
  - rewrite (send_resource_update_None _ _ _ _ Hk).
    eexists _, []. by repeat split.
Qed.

Lemma lookup_settle f (ps : gmap nat ProcState) oid :
  settle f ps !! oid
  = (λ st, match st with
           | Alive => match f oid with Some c => Exited c | None => Alive end
           | _ => st
           end) <$> ps !! oid.
Proof. unfold settle. rewrite map_lookup_imap. by destruct (ps !! oid). Qed.

(** Waiting changes the state of running jobs only. *)
Lemma proc_state_pause (w : World T) oid :
  proc_state w oid ≠ Alive →
  proc_state (pause w).2 oid = proc_state w oid.
Proof.
  unfold proc_state; cbn. rewrite lookup_settle.
  by destruct (procs w !! oid) as [[]|].
Qed.

(** [terminate] on a well-formed store: it returns, and it is recorded as
    one call of [terminate] followed by calls that are neither a
    [terminate], nor a [start], nor a [queue.close]. *)
Lemma terminate_run (self : EnqueuedProcess T) status message w :
  store_ok w →
  ∃ w' evs,
    terminate self status message w = (Ok tt, w')
    ∧ trace w' = trace w ++ EvTerminate (process self) status message :: evs
    ∧ Forall quiet_event evs
    ∧ store_ok w'.
Proof.
  intros Hok. unfold terminate, ResourceLogger.commit_termination, time_sleep.
  unfold Process_is_alive, Process_terminate. run.
  set (w3 := set_pauses _ _).
  destruct (proc_state w3 (process self)) eqn:Hst; cbn.
  - destruct (send_resource_update_run self status message w3)
      as (w' & evs & -> & Htr & Hev & Hok' & _); [done|].
    eexists _, _. split; [reflexivity|]. rewrite Htr. cbn.
    rewrite <- !app_assoc. split; [reflexivity|]. split; [|done].
    repeat constructor. eapply Forall_impl; [done|]. apply logger_event_quiet.
  - rewrite Hst.
    set (w4 := set_trace _ _).
    destruct (send_resource_update_run self status message w4)
      as (w' & evs & -> & Htr & Hev & Hok' & _); [done|].
    eexists _, _. split; [reflexivity|]. rewrite Htr. cbn.
    rewrite <- !app_assoc. split; [reflexivity|]. split; [|done].
    repeat constructor. eapply Forall_impl; [done|]. apply logger_event_quiet.
  - destruct (send_resource_update_run self status message w3)
      as (w' & evs & -> & Htr & Hev & Hok' & _); [done|].
    eexists _, _. split; [reflexivity|]. rewrite Htr. cbn.
    rewrite <- !app_assoc. split; [reflexivity|]. split; [|done].
    repeat constructor. eapply Forall_impl; [done|]. apply logger_event_quiet.
Qed.

End Terminate.

(** ** The final status update *)

Lemma example_world_ok : store_ok example_world.
Proof.
  intros k de Hk. unfold example_world in Hk. cbn [store] in Hk.
  apply lookup_singleton_Some in Hk as [_ <-]. by eexists.
Qed.

Section Wrapper.
Context {T : Type} `{PyNum T}.

(** C2, as the code has it: the final status update does nothing when no
    document is stored for (user_id, resource_id); otherwise it stores, with
    the configured expiration, the document with the supplied status, the
    supplied message behind the prefix "The process was terminated by the
    server: ", the clock reading as timestamp, the wall clock as datetime
    and timestamp minus the stored accept_timestamp as time_delta. *)
Theorem send_resource_update_final (self : EnqueuedProcess T)
    (status message : string) (w : World T) :
  final_update_spec terminated_by_server self status message w.
Proof.
  unfold final_update_spec.
  destruct (store w !! (user_id self, resource_id self)) as [[d e]|] eqn:Hk.
  - intros t0 Ht0.
    rewrite (send_resource_update_Some _ _ _ _ _ _ _ Hk Ht0). cbn.
    eexists _, _, _. split; [done|]. split; [apply lookup_insert_eq|].
    do 2 (split; [reflexivity|]).
    unfold updated_document, updated_model. cbn [response_model].
    repeat split;
      repeat (rewrite lookup_insert_ne by done); rewrite ?lookup_insert_eq;
      try done.
    by apply accept_timestamp_Some.
  - by rewrite (send_resource_update_None _ _ _ _ Hk).
Qed.

(** C5: on a started wrapper [check_timeout] answers [False] whatever the
    clock shows, and does nothing else: no [terminate], no change to the
    world. *)
Theorem check_timeout_started (self : EnqueuedProcess T) (w : World T) :
  started self = true →
  check_timeout self w = (Ok false, w).
Proof. intros Hs. unfold check_timeout. by rewrite Hs. Qed.

(** C4: on a wrapper that is not started, with a numeric timeout,
    [check_timeout] answers [True] exactly when the timeout is smaller than
    the clock reading minus [init_time]; when it answers [True] it has
    called [terminate] with status "timeout", and when it answers [False] it
    has called nothing. *)
Theorem check_timeout_waiting (self : EnqueuedProcess T) (t : T) (w : World T) :
  started self = false →
  timeout self = VNum t →
  store_ok w →
  let now := clock (oracle w) (reads w) in
  let late := num_ltb t (num_sub now (init_time self)) in
  ∃ w',
    check_timeout self w = (Ok late, w')
    ∧ if late
      then ∃ evs,
             trace w' = trace w
               ++ EvTerminate (process self) "timeout" (timeout_message t) :: evs
             ∧ Forall quiet_event evs
      else trace w' = trace w.
Proof.
  intros Hs Ht Hok now late. unfold check_timeout, time_time.
  rewrite Hs, Ht. run. fold now. fold late.
  destruct late.
  - destruct (terminate_run self "timeout" (timeout_message t)
                (set_reads (S (reads w)) w)) as (w' & evs & -> & Htr & Hq & _);
      [done|].
    eauto.
  - eauto.
Qed.

(** C9: [terminate] on a wrapper whose process is not alive (never started,
    or already exited) returns normally, sends no kill (after the notice to
    the logger come only calls on the logger, the first one reading the
    stored document), leaves the state of the process as it is, writes the
    new status into a stored document, and leaves a store on which it can be
    called again. *)
Theorem terminate_not_alive (self : EnqueuedProcess T)
    (status message : string) (w : World T) :
  proc_state w (process self) ≠ Alive →
  store_ok w →
  ∃ w' evs,
    terminate self status message w = (Ok tt, w')
    ∧ trace w' = trace w
        ++ EvTerminate (process self) status message
        :: EvCommitTermination (user_id self) (resource_id self)
        :: EvGet (user_id self) (resource_id self) :: evs
    ∧ Forall logger_event evs
    ∧ proc_state w' (process self) = proc_state w (process self)
    ∧ (∀ d e, store w !! (user_id self, resource_id self) = Some (d, e) →
         ∃ d', store w' !! (user_id self, resource_id self)
               = Some (d', REDIS_RESOURCE_EXPIRE_TIME (config self))
               ∧ response_model d' !! "status" = Some (VStr status))
    ∧ store_ok w'.
Proof.
  intros Hna Hok.
  unfold terminate, ResourceLogger.commit_termination, time_sleep.
  unfold Process_is_alive. run.
  set (w2 := set_trace _ (set_trace _ w)).
  assert (Hst : proc_state (pause w2).2 (process self)
                = proc_state w (process self))
    by exact (proc_state_pause w2 _ Hna).
  cbn in Hst. set (w3 := set_pauses _ _) in *.
  assert (Hnot : match proc_state w3 (process self) with
                 | Alive => true | _ => false end = false).
  { rewrite Hst. by destruct (proc_state w (process self)). }
  rewrite Hnot. cbn.
  destruct (send_resource_update_run self status message w3)
    as (w' & evs & Hrun & Htr & Hev & Hok' & Hprocs); [done|].
  exists w', evs. rewrite Hrun. split; [done|].
  split; [by rewrite Htr; cbn; rewrite <- !app_assoc|].
  split; [done|].
  split; [by unfold proc_state in *; rewrite Hprocs|].
  split; [|done].
  intros d e Hk.
  assert (Hk3 : store w3 !! (user_id self, resource_id self) = Some (d, e)) by done.
  destruct (store_ok_lookup _ _ _ _ Hok Hk) as [t0 Ht0].
  rewrite (send_resource_update_Some _ _ _ _ _ _ _ Hk3 Ht0) in Hrun.
  injection Hrun as <-. cbn. eexists. split; [apply lookup_insert_eq|].
  unfold updated_document, updated_model. cbn [response_model].
  rewrite !lookup_insert_ne by done. apply lookup_insert_eq.
Qed.

End Wrapper.

(** ** Shutdown *)

Section Shutdown.
Context {T : Type} `{PyNum T}.

Lemma terminate_calls_app (tr1 tr2 : list (Event T)) :
  terminate_calls (tr1 ++ tr2) = terminate_calls tr1 ++ terminate_calls tr2.
Proof. apply omap_app. Qed.

Lemma terminate_calls_quiet (evs : list (Event T)) :
  Forall quiet_event evs → terminate_calls evs = [].
Proof.
  induction 1 as [|e evs He _ IH]; [done|].
  unfold terminate_calls in *. cbn. rewrite IH. by destruct e.
Qed.

Lemma quiet_no_start (e : Event T) : quiet_event e → no_start_no_close e.
Proof. by destruct e. Qed.

(** Terminating every wrapper of a list: one call of [terminate] per
    element, in order, and no [start] or [queue.close] in between. *)
Lemma for_each_terminate (l : list (EnqueuedProcess T)) status message w :
  store_ok w →
  ∃ w' evs,
    for_each l (λ enqproc, terminate enqproc status message) w = (Ok tt, w')
    ∧ trace w' = trace w ++ evs
    ∧ terminate_calls evs = (λ p, (process p, status, message)) <$> l
    ∧ Forall no_start_no_close evs
    ∧ store_ok w'.
Proof.
  revert w. induction l as [|p l IH]; intros w Hok.
  - exists w, []. cbn. by rewrite app_nil_r.
  - destruct (terminate_run p status message w Hok)
      as (w1 & evs1 & Hrun & Htr1 & Hq1 & Hok1).
    destruct (IH w1 Hok1) as (w2 & evs2 & Hrun2 & Htr2 & Hc2 & Hn2 & Hok2).
    exists w2, (EvTerminate (process p) status message :: evs1 ++ evs2).
    cbn [for_each]. unfold bind at 1. rewrite Hrun, Hrun2.
    split; [done|]. split; [by rewrite Htr2, Htr1, <- app_assoc|].
    split; [|split; [|done]].
    + change (terminate_calls (?e :: ?l)) with (terminate_calls ([e] ++ l)).
      rewrite !terminate_calls_app, Hc2, (terminate_calls_quiet evs1 Hq1).
      done.
    + constructor; [done|]. apply Forall_app. split; [|done].
      eapply Forall_impl; [done|]. apply quiet_no_start.
Qed.

(** The STOP branch as a whole. *)
Lemma shutdown_run (running waiting : list (EnqueuedProcess T)) w :
  store_ok w →
  ∃ w' evs,
    shutdown running waiting w = (Ok tt, w')
    ∧ trace w' = trace w ++ evs ++ [EvQueueClose]
    ∧ terminate_calls evs
      = ((λ p, (process p, "error", running_shutdown_message)) <$> running)
        ++ ((λ p, (process p, "error", waiting_shutdown_message)) <$> waiting)
    ∧ Forall no_start_no_close evs.
Proof.
  intros Hok. unfold shutdown.
  destruct (for_each_terminate running "error" running_shutdown_message w Hok)
    as (w1 & evs1 & Hrun1 & Htr1 & Hc1 & Hn1 & Hok1).
  destruct (for_each_terminate waiting "error" waiting_shutdown_message w1 Hok1)
    as (w2 & evs2 & Hrun2 & Htr2 & Hc2 & Hn2 & Hok2).
  eexists _, (evs1 ++ evs2). unfold bind. rewrite Hrun1, Hrun2.
  unfold queue_close, emit. split; [reflexivity|]. cbn.
  split; [by rewrite Htr2, Htr1, <- !app_assoc|].
  split; [by rewrite terminate_calls_app, Hc1, Hc2|].
  by apply Forall_app.
Qed.

(** C3: when the message is the STOP command, the iteration calls
    [terminate] with status "error" once for each element of
    [running_procs] (message "Running process was terminated by server
    shutdown.") and then once for each element of [waiting_processes]
    (message "Waiting process was terminated by server shutdown."), starts
    nothing, closes the queue last and returns: however many iterations the
    manager had left, none is run. *)
Theorem stop_terminates_all (config : Config)
    (running waiting : list (EnqueuedProcess T)) (w : World T) :
  store_ok w →
  ∃ w' evs,
    loop_body config stop_message running waiting w
    = (Ok (Return, (running, waiting)), w')
    ∧ trace w' = trace w ++ evs ++ [EvQueueClose]
    ∧ terminate_calls evs
      = ((λ p, (process p, "error", running_shutdown_message)) <$> running)
        ++ ((λ p, (process p, "error", waiting_shutdown_message)) <$> waiting)
    ∧ Forall no_start_no_close evs
    ∧ ∀ fuel w0,
        queue_get w0 = (Ok stop_message, w) →
        manager_loop config (S fuel) running waiting w0
        = (Ok (Return, (running, waiting)), w').
Proof.
  intros Hok.
  destruct (shutdown_run running waiting w Hok) as (w' & evs & Hrun & Htr & Hc & Hn).
  assert (Hbody : loop_body config stop_message running waiting w
                  = (Ok (Return, (running, waiting)), w')).
  { unfold loop_body, dispatch_then_admission. run. unfold bind. by rewrite Hrun. }
  exists w', evs. repeat split; try done.
  intros fuel w0 Hget. cbn [manager_loop]. unfold bind at 1.
  rewrite Hget. unfold bind at 1. by rewrite Hbody.
Qed.

End Shutdown.

(** ** Dispatch on the message *)

Section Dispatch.
Context {T : Type} `{PyNum T}.

(** A message built by [enqueue_job] is taken for the STOP command exactly
    when its function or its timeout is the string "STOP". *)
Lemma job_message_stop (timeout func : pyval T) (args : list (pyval T)) :
  is_stop_command (job_message timeout func args)
  = Ok (is_STOP func || is_STOP timeout).
Proof. cbn. by rewrite !orb_false_r. Qed.

Lemma job_message_submission (timeout func : pyval T) (args : list (pyval T)) :
  is_submission (job_message timeout func args) = Ok true.
Proof. done. Qed.

(** A message that is not a container has no [in]: the iteration raises. *)
Lemma not_container_raises (config : Config) (data : pyval T)
    (running waiting : list (EnqueuedProcess T)) (w : World T) :
  match data with
  | VNum _ | VFunc _ | VContext _ => True
  | _ => False
  end →
  loop_body config data running waiting w = (Raise TypeError, w).
Proof. by destruct data. Qed.

(** C7, as the code has it: a message [(func, timeout, args)] built by
    [enqueue_job] whose function and timeout are not the string "STOP", and
    whose first argument is a context, is not taken for the STOP command;
    a wrapper is made for it (new process handle, the given timeout, the
    identifiers of the context, the clock reading as [init_time], not
    started) and added to [waiting_processes], and the iteration goes on
    with the admission step. *)
Theorem submission_enqueued (cfg : Config) (tmo func : pyval T)
    (c : Context) (rest : list (pyval T))
    (running waiting : list (EnqueuedProcess T)) (w : World T) :
  is_STOP func = false →
  is_STOP tmo = false →
  let data := job_message tmo func (VContext c :: rest) in
  let enqproc :=
    {| process := next_oid w; timeout := tmo;
       config := ctx_config c;
       resource_id := ctx_resource_id c; user_id := ctx_user_id c;
       init_time := clock (oracle w) (reads w); started := false |} in
  let w1 :=
    set_reads (S (reads w))
      (set_next_oid (S (next_oid w))
         (set_procs (<[next_oid w := Initial]> (procs w)) w)) in
  is_stop_command data = Ok false
  ∧ submit data waiting w = (Ok (set_add enqproc waiting), w1)
  ∧ dispatch_then_admission cfg data running waiting w
    = (sets <- admission cfg running (set_add enqproc waiting) ;;
       ret (Continue, sets)) w1.
Proof.
  intros Hf Ht data enqproc w1.
  assert (Hstop : is_stop_command data = Ok false)
    by by unfold data; rewrite job_message_stop, Hf, Ht.
  assert (Hsub : submit data waiting w = (Ok (set_add enqproc waiting), w1))
    by done.
  split; [done|]. split; [done|].
  unfold dispatch_then_admission. unfold bind at 1, lift at 1. rewrite Hstop.
  assert (Hlen : is_submission data = Ok true) by done.
  unfold bind at 1, lift at 1. rewrite Hlen.
  unfold bind at 1. by rewrite Hsub.
Qed.

(** The messages that are dropped: nothing, or a string, tuple or list
    without "STOP" whose length is not 3. *)
Lemma dropped_messages (data : pyval T) :
  is_stop_command data = Ok false ∧ is_submission data = Ok false
  ↔ match data with
    | VNone => True
    | VStr s => str_contains "STOP" s = false ∧ String.length s ≠ 3%nat
    | VTuple xs | VList xs => existsb is_STOP xs = false ∧ length xs ≠ 3%nat
    | _ => False
    end.
Proof.
  destruct data as [|s|x|xs|xs|f|c]; cbn; try (split; [by intros []|done]);
    try done.
  - split.
    + intros [[= ->] Hlen]. split; [done|].
      destruct (Z.eqb_spec (Z.of_nat (String.length s)) 3); [done|]. lia.
    + intros [-> Hlen]. split; [done|]. f_equal. apply Z.eqb_neq. lia.
  - split.
    + intros [[= ->] Hlen]. split; [done|].
      destruct (Z.eqb_spec (Z.of_nat (length xs)) 3); [done|]. lia.
    + intros [-> Hlen]. split; [done|]. f_equal. apply Z.eqb_neq. lia.
  - split.
    + intros [[= ->] Hlen]. split; [done|].
      destruct (Z.eqb_spec (Z.of_nat (length xs)) 3); [done|]. lia.
    + intros [-> Hlen]. split; [done|]. f_equal. apply Z.eqb_neq. lia.
Qed.

(** C10, as the code has it: a message for which ["STOP" in data] is false
    and [len(data) == 3] is false (a string, tuple or list without "STOP"
    and not of length 3) is dropped: the iteration goes straight to the
    admission step with both sets as they were, and as a whole it does what
    it does when the queue had nothing. *)
Theorem other_message_dropped (config : Config) (data : pyval T)
    (running waiting : list (EnqueuedProcess T)) (w : World T) :
  is_stop_command data = Ok false →
  is_submission data = Ok false →
  dispatch_then_admission config data running waiting w
  = (sets <- admission config running waiting ;; ret (Continue, sets)) w
  ∧ loop_body config data running waiting w
    = loop_body config VNone running waiting w.
Proof.
  intros Hstop Hsub.
  assert (Hd : ∀ w, dispatch_then_admission config data running waiting w
               = dispatch_then_admission config VNone running waiting w).
  { intros w0. unfold dispatch_then_admission.
    unfold bind at 1, lift at 1. rewrite Hstop.
    unfold bind at 1, lift at 1. by rewrite Hsub. }
  split; [by rewrite Hd|].
  unfold loop_body, bind at 1. rewrite Hd. done.
Qed.

End Dispatch.

(** ** Reading monadic runs *)

Section Runs.
Context {T : Type}.

Lemma bind_Ok {A B} (m : M T A) (k : A → M T B) w b w' :
  bind m k w = (Ok b, w') →
  ∃ a w1, m w = (Ok a, w1) ∧ k a w1 = (Ok b, w').
Proof.
  unfold bind. destruct (m w) as [[a|e] w1]; [|done]. eauto.
Qed.

Lemma ret_Ok {A} (a b : A) (w w' : World T) :
  ret a w = (Ok b, w') → a = b ∧ w = w'.
Proof. unfold ret. by intros [= -> ->]. Qed.

Lemma filter_ext_in {A} (P Q : A → Prop)
    `{∀ x, Decision (P x)} `{∀ x, Decision (Q x)} (l : list A) :
  (∀ x, x ∈ l → P x ↔ Q x) → filter P l = filter Q l.
Proof.
  induction l as [|x l IH]; intros HPQ; [done|].
  rewrite !filter_cons, IH by (intros y Hy; apply HPQ; by right).
  destruct (decide (P x)) as [HP|HP], (decide (Q x)) as [HQ|HQ];
    try done; exfalso; apply (HPQ x) in HP || apply (HPQ x) in HQ;
    done || by left.
Qed.

Lemma NoDup_fmap_eq {A B} (f : A → B) (l : list A) x y :
  NoDup (f <$> l) → x ∈ l → y ∈ l → f x = f y → x = y.
Proof.
  induction l as [|a l IH]; cbn; intros Hnd Hx Hy Hf; [by inversion Hx|].
  apply NoDup_cons in Hnd as [Ha Hnd].
  apply elem_of_cons in Hx as [->|Hx], Hy as [->|Hy]; try done.
  - exfalso. apply Ha. rewrite Hf. by apply list_elem_of_fmap_2.
  - exfalso. apply Ha. rewrite <- Hf. by apply list_elem_of_fmap_2.
  - by apply IH.
Qed.

End Runs.

(** ** The sets *)

Section SetLemmas.
Context {T : Type}.
Implicit Types (p q : EnqueuedProcess T) (s l : list (EnqueuedProcess T)).

Lemma set_mem_true p s : p ∈ s → set_mem p s = true.
Proof.
  intros Hp. apply bool_decide_eq_true, Exists_exists. by exists p.
Qed.

Lemma set_add_length p s : (length (set_add p s) ≤ S (length s))%nat.
Proof.
  unfold set_add. destruct (set_mem p s); [lia|].
  rewrite length_app. cbn. lia.
Qed.

Lemma set_remove_length p s s' :
  set_remove p s = Ok s' → (length s' ≤ length s)%nat.
Proof.
  unfold set_remove. destruct (set_mem p s); [|done].
  intros [= <-]. apply length_filter.
Qed.

Lemma remove_all_length l s (w : World T) s' w' :
  remove_all l s w = (Ok s', w') → (length s' ≤ length s)%nat.
Proof.
  revert s w. induction l as [|p l IH]; intros s w; cbn [remove_all].
  - by intros [-> _]%ret_Ok.
  - intros (s1 & w1 & Hrem & Hrest)%bind_Ok.
    unfold lift in Hrem. injection Hrem as Hrem _.
    apply set_remove_length in Hrem. apply IH in Hrest. lia.
Qed.

(** Removing, one after the other, distinct elements of a set. *)
Lemma remove_all_run l s (w : World T) :
  NoDup (process <$> l) →
  l ⊆ s →
  remove_all l s w
  = (Ok (filter (λ q, process q ∉ process <$> l) s), w).
Proof.
  revert s. induction l as [|p l IH]; intros s Hnd Hsub.
  - cbn. unfold ret. f_equal. f_equal. clear Hnd Hsub.
    induction s as [|x s IHs]; [done|].
    rewrite filter_cons_True by apply not_elem_of_nil. by f_equal.
  - cbn [remove_all]. unfold bind, lift, set_remove.
    rewrite set_mem_true by (apply Hsub; by left).
    cbn in Hnd. apply NoDup_cons in Hnd as [Hp Hnd].
    rewrite IH; [| done |].
    + f_equal. f_equal. rewrite list_filter_filter.
      apply list_filter_iff. intros q. unfold same_object. cbn.
      rewrite elem_of_cons. split.
      * intros [Hq Hne] [Heq|Hin]; [by apply Hne | by apply Hq].
      * intros Hq. split; [by intros Hin; apply Hq; right|].
        by intros Heq; apply Hq; left.
    + intros q Hq. apply list_elem_of_filter. split.
      * unfold same_object. intros Heq. apply Hp. rewrite Heq.
        by apply list_elem_of_fmap_2.
      * apply Hsub. by right.
Qed.

(** Collecting with a test that only reads the world. *)
Lemma select_pure {A} (test : A → M T bool) (P : A → Prop)
    {HP : ∀ x, Decision (P x)} (l : list A) (w : World T) :
  (∀ x, test x w = (Ok (bool_decide (P x)), w)) →
  select l test w = (Ok (filter P l), w).
Proof.
  intros Htest. induction l as [|x l IH]; [done|].
  cbn [select]. unfold bind. rewrite Htest, IH. unfold ret.
  rewrite filter_cons. unfold bool_decide, decide. by destruct (HP x).
Qed.

End SetLemmas.

(** ** The steps of an iteration *)

Section Steps.
Context {T : Type} `{PyNum T}.
Implicit Types (p : EnqueuedProcess T) (running waiting : list (EnqueuedProcess T)).

Lemma finished_run p (w : World T) :
  finished p w
  = (Ok (bool_decide (started p = true ∧ is_Some (exit_code w p))), w).
Proof.
  unfold finished, exitcode, Process_exitcode, exit_code. run.
  f_equal. f_equal.
  destruct (started p), (proc_state w (process p)); cbn;
    try (symmetry; apply bool_decide_eq_false; intros [? [? ?]]; done).
  symmetry. apply bool_decide_eq_true. eauto.
Qed.

(** C8: the first purge removes from [running_procs] exactly the wrappers
    that are started and whose process shows an exit code, zero or not, and
    it leaves the world (the store, the processes, the record of calls) as
    it was. *)
Theorem reap_removes_finished running (w : World T) :
  NoDup (process <$> running) →
  reap running w
  = (Ok (filter (λ p, ¬ (started p = true ∧ is_Some (exit_code w p))) running),
     w).
Proof.
  intros Hnd. unfold reap, bind.
  rewrite (select_pure finished
             (λ p, started p = true ∧ is_Some (exit_code w p)))
    by (intros x; exact (finished_run x w)).
  set (fin := λ p, started p = true ∧ is_Some (exit_code w p)).
  rewrite remove_all_run.
  - f_equal. f_equal. apply filter_ext_in. intros q Hq. split.
    + intros Hnot Hfin. apply Hnot.
      apply list_elem_of_fmap_2. by apply list_elem_of_filter.
    + intros Hnfin (q' & Heq & [Hfin Hq']%list_elem_of_filter)%list_elem_of_fmap.
      apply Hnfin.
      by rewrite (NoDup_fmap_eq process running q q' Hnd Hq Hq' Heq).
  - apply NoDup_fmap_2_strong.
    + intros x y [_ Hx]%list_elem_of_filter [_ Hy]%list_elem_of_filter.
      by apply NoDup_fmap_eq with (l := running).
    + apply NoDup_filter. by apply NoDup_fmap_1 in Hnd.
  - intros q [_ Hq]%list_elem_of_filter. done.
Qed.

Lemma reap_length running (w : World T) running' w' :
  reap running w = (Ok running', w') →
  (length running' ≤ length running)%nat.
Proof.
  unfold reap. intros (l & w1 & _ & Hrem)%bind_Ok.
  by apply remove_all_length in Hrem.
Qed.

(** What the admission step does when a worker is free and a wrapper
    waits: it takes the element of
    [waiting_processes] that [pop] chooses, starts it and adds it to
    [running_procs]. *)
Lemma admission_starts_one (cfg : Config) running waiting (w : World T) :
  Z.of_nat (length running) < NUMBER_OF_WORKERS cfg →
  waiting ≠ [] →
  Forall (λ p, proc_state w (process p) = Initial) waiting →
  let i := ((pop_choice (oracle w) (process <$> waiting))
            `mod` (length waiting))%nat in
  ∃ p, waiting !! i = Some p
       ∧ admission cfg running waiting w
         = (Ok (set_add (set_started true p) running, delete i waiting),
            set_trace (trace w ++ [EvStart (process p)])
              (set_procs (<[process p := Alive]> (procs w)) w)).
Proof.
  intros Hlt Hne Hinit i.
  assert (Hi : (i < length waiting)%nat).
  { apply Nat.mod_upper_bound. by destruct waiting. }
  destruct (lookup_lt_is_Some_2 _ _ Hi) as [p Hp].
  exists p. split; [done|].
  unfold admission.
  rewrite (proj2 (Z.ltb_lt _ _) Hlt).
  assert (Hpos : (0 <? Z.of_nat (length waiting)) = true).
  { apply Z.ltb_lt. destruct waiting; [done|]. cbn. lia. }
  rewrite Hpos.
  unfold bind at 1, set_pop. fold i. rewrite Hp.
  unfold start, bind, Process_start, ret. cbn [process set_started].
  assert (Hst : proc_state w (process p) = Initial).
  { eapply (proj1 (Forall_forall _ _) Hinit). by eapply list_elem_of_lookup_2. }
  by rewrite Hst.
Qed.

(** What the admission step does otherwise: nothing. *)
Lemma admission_idle (cfg : Config) running waiting (w : World T) :
  ¬ (Z.of_nat (length running) < NUMBER_OF_WORKERS cfg ∧ waiting ≠ []) →
  admission cfg running waiting w = (Ok (running, waiting), w).
Proof.
  intros Hnot. unfold admission.
  destruct (Z.ltb_spec (Z.of_nat (length running)) (NUMBER_OF_WORKERS cfg));
    [|done].
  destruct waiting as [|p waiting]; [done|].
  exfalso. apply Hnot. done.
Qed.

(** C1, as the code has it: the admission step of an iteration moves at
    most one wrapper.  When [running_procs] has fewer than
    [NUMBER_OF_WORKERS] elements and [waiting_processes] is not empty, it
    removes one wrapper from [waiting_processes] (the one [pop] chooses),
    adds it to [running_procs] and calls [start] on it, once; otherwise it
    changes nothing. *)
Theorem admission_one_per_iteration (cfg : Config) running waiting (w : World T) :
  Forall (λ p, proc_state w (process p) = Initial) waiting →
  if bool_decide (Z.of_nat (length running) < NUMBER_OF_WORKERS cfg
                  ∧ waiting ≠ [])
  then
    ∃ i p,
      waiting !! i = Some p
      ∧ admission cfg running waiting w
        = (Ok (set_add (set_started true p) running, delete i waiting),
           set_trace (trace w ++ [EvStart (process p)])
             (set_procs (<[process p := Alive]> (procs w)) w))
  else admission cfg running waiting w = (Ok (running, waiting), w).
Proof.
  intros Hinit. case_bool_decide as Hc.
  - destruct Hc as [Hlt Hne].
    destruct (admission_starts_one cfg running waiting w Hlt Hne Hinit) as (p & Hp & Hrun).
    eauto.
  - by apply admission_idle.
Qed.

End Steps.

(** ** The bound on the running processes *)

Section Bound.
Context {T : Type} `{PyNum T}.
Implicit Types (running waiting : list (EnqueuedProcess T)).

Lemma admission_bounded (cfg : Config) running waiting (w : World T)
    running' waiting' w' :
  Z.of_nat (length running) ≤ NUMBER_OF_WORKERS cfg →
  admission cfg running waiting w = (Ok (running', waiting'), w') →
  Z.of_nat (length running') ≤ NUMBER_OF_WORKERS cfg.
Proof.
  intros Hle. unfold admission.
  destruct (Z.ltb_spec (Z.of_nat (length running)) (NUMBER_OF_WORKERS cfg))
    as [Hlt|_]; [|by intros [[= <- <-] _]%ret_Ok].
  destruct (0 <? Z.of_nat (length waiting));
    [|by intros [[= <- <-] _]%ret_Ok].
  intros ([p rest] & w1 & _ & (p' & w2 & _ & [[= <- <-] _]%ret_Ok)%bind_Ok)%bind_Ok.
  pose proof (set_add_length p' running). lia.
Qed.

Lemma dispatch_then_admission_bounded (cfg : Config) (data : pyval T)
    running waiting (w : World T) fl running' waiting' w' :
  Z.of_nat (length running) ≤ NUMBER_OF_WORKERS cfg →
  dispatch_then_admission cfg data running waiting w
  = (Ok (fl, (running', waiting')), w') →
  Z.of_nat (length running') ≤ NUMBER_OF_WORKERS cfg.
Proof.
  intros Hle. unfold dispatch_then_admission.
  intros ([] & w1 & _ & Hrest)%bind_Ok.
  - apply bind_Ok in Hrest as (_ & w2 & _ & [[= _ <- <-] _]%ret_Ok). done.
  - apply bind_Ok in Hrest as (sub & w2 & _ & Hrest).
    apply bind_Ok in Hrest as (waiting1 & w3 & _ & Hrest).
    apply bind_Ok in Hrest as ([r1 wt1] & w4 & Hadm & [[= _ <- <-] _]%ret_Ok).
    by eapply admission_bounded.
Qed.

Lemma loop_body_bounded (cfg : Config) (data : pyval T)
    running waiting (w : World T) fl running' waiting' w' :
  Z.of_nat (length running) ≤ NUMBER_OF_WORKERS cfg →
  loop_body cfg data running waiting w = (Ok (fl, (running', waiting')), w') →
  Z.of_nat (length running') ≤ NUMBER_OF_WORKERS cfg.
Proof.
  intros Hle. unfold loop_body.
  intros ([fl1 [r1 wt1]] & w1 & Hd & Hrest)%bind_Ok.
  pose proof (dispatch_then_admission_bounded _ _ _ _ _ _ _ _ _ Hle Hd) as Hle1.
  destruct fl1.
  - apply bind_Ok in Hrest as (r2 & w2 & Hreap & Hrest).
    apply bind_Ok in Hrest as (wt2 & w3 & _ & [[= _ <- <-] _]%ret_Ok).
    apply reap_length in Hreap. lia.
  - by apply ret_Ok in Hrest as [[= _ <- <-] _].
Qed.

Lemma manager_loop_bounded (cfg : Config) (fuel : nat)
    running waiting (w : World T) fl running' waiting' w' :
  Z.of_nat (length running) ≤ NUMBER_OF_WORKERS cfg →
  manager_loop cfg fuel running waiting w
  = (Ok (fl, (running', waiting')), w') →
  Z.of_nat (length running') ≤ NUMBER_OF_WORKERS cfg.
Proof.
  revert running waiting w. induction fuel as [|fuel IH];
    intros running waiting w Hle; cbn [manager_loop].
  - by intros [[= _ <- <-] _]%ret_Ok.
  - intros (data & w1 & _ & Hrest)%bind_Ok.
    apply bind_Ok in Hrest as ([fl1 [r1 wt1]] & w2 & Hbody & Hrest).
    pose proof (loop_body_bounded _ _ _ _ _ _ _ _ _ Hle Hbody) as Hle1.
    destruct fl1.
    + by eapply IH.
    + by apply ret_Ok in Hrest as [[= _ <- <-] _].
Qed.

(** C6: with a worker number that is not negative, after the admission
    step of any iteration of the manager, started with both sets empty,
    [running_procs] has at most [NUMBER_OF_WORKERS] elements: whatever the
    earlier iterations received and whatever the message of this one. *)
Theorem running_bounded_after_admission (cfg : Config) (fuel : nat)
    (w0 : World T) running waiting (w : World T) (data : pyval T)
    (w1 : World T) fl running' waiting' (w' : World T) :
  0 ≤ NUMBER_OF_WORKERS cfg →
  manager_loop cfg fuel [] [] w0 = (Ok (Continue, (running, waiting)), w) →
  queue_get w = (Ok data, w1) →
  dispatch_then_admission cfg data running waiting w1
  = (Ok (fl, (running', waiting')), w') →
  Z.of_nat (length running') ≤ NUMBER_OF_WORKERS cfg.
Proof.
  intros Hcap Hloop _ Hd.
  eapply dispatch_then_admission_bounded; [|done].
  eapply manager_loop_bounded; [|done]. done.
Qed.

End Bound.

(** ** What every state of the manager satisfies

    The hypotheses of the steps above hold whenever the manager reaches
    them: its sets never hold a wrapper twice, and a wrapper that waits has
    not been started. *)

Section Invariant.
Context {T : Type} `{PyNum T}.
Implicit Types (p : EnqueuedProcess T) (running waiting : list (EnqueuedProcess T)).

Lemma frame_refl (w : World T) : frame w w.
Proof. by split. Qed.

Lemma frame_trans (w1 w2 w3 : World T) :
  frame w1 w2 → frame w2 w3 → frame w1 w3.
Proof. intros [Hn1 Hp1] [Hn2 Hp2]. split; [congruence|auto]. Qed.

Lemma frame_same_procs (w w' : World T) :
  next_oid w' = next_oid w → procs w' = procs w → frame w w'.
Proof. intros Hn Hp. split; [done|]. unfold proc_state. by rewrite Hp. Qed.

Lemma framed_ret {A} (a : A) : framed (ret (T:=T) a).
Proof. intros w r w' [= _ <-]. apply frame_refl. Qed.

Lemma framed_lift {A} (r : result A) : framed (lift (T:=T) r).
Proof. intros w r' w' [= _ <-]. apply frame_refl. Qed.

Lemma framed_bind {A B} (m : M T A) (k : A → M T B) :
  framed m → (∀ a, framed (k a)) → framed (bind m k).
Proof.
  intros Hm Hk w r w'. unfold bind.
  destruct (m w) as [[a|e] w1] eqn:Hmw.
  - intros Hkw. eapply frame_trans; [by eapply Hm | by eapply Hk].
  - intros [= _ <-]. by eapply Hm.
Qed.

Lemma framed_emit (e : Event T) : framed (emit e).
Proof. intros w r w' [= _ <-]. by apply frame_same_procs. Qed.

Lemma framed_time_time : framed (time_time (T:=T)).
Proof. intros w r w' [= _ <-]. by apply frame_same_procs. Qed.

Lemma framed_datetime_now : framed (datetime_now (T:=T)).
Proof. intros w r w' [= _ <-]. by apply frame_same_procs. Qed.

Lemma framed_pause : framed (pause (T:=T)).
Proof.
  intros w r w' [= _ <-]. split; [done|]. intros oid Hst.
  rewrite <- Hst. apply (proc_state_pause w oid). by rewrite Hst.
Qed.

Lemma framed_queue_get : framed (queue_get (T:=T)).
Proof.
  apply framed_bind; [apply framed_pause|]. intros _ w r w'.
  destruct (incoming w); intros [= _ <-]; by apply frame_same_procs.
Qed.

Lemma framed_Process_is_alive oid : framed (Process_is_alive (T:=T) oid).
Proof. intros w r w' [= _ <-]. apply frame_refl. Qed.

Lemma framed_Process_terminate oid : framed (Process_terminate (T:=T) oid).
Proof.
  intros w r w'. unfold Process_terminate.
  destruct (proc_state w oid) eqn:Hst; intros [= _ <-]; try apply frame_refl.
  split; [done|]. intros oid' Hst'. unfold proc_state in *. cbn.
  rewrite lookup_insert_ne; [done|]. intros ->. congruence.
Qed.

Lemma framed_logger_get user resource :
  framed (ResourceLogger.get (T:=T) user resource).
Proof.
  apply framed_bind; [apply framed_emit|].
  intros _ w r w' [= _ <-]. apply frame_refl.
Qed.

Lemma framed_logger_commit user resource (d : Document T) ttl :
  framed (ResourceLogger.commit user resource d ttl).
Proof.
  apply framed_bind; [apply framed_emit|].
  intros _ w r w' [= _ <-]. by apply frame_same_procs.
Qed.

#[local] Hint Resolve framed_ret framed_lift framed_emit framed_time_time
  framed_datetime_now framed_pause framed_queue_get framed_Process_is_alive
  framed_Process_terminate framed_logger_get framed_logger_commit : framed.

Ltac framed_steps :=
  first [ solve [auto with framed]
        | apply framed_bind; [framed_steps | intros ?; framed_steps]
        | idtac ].

Lemma framed_send_resource_update p status message :
  framed (_send_resource_update p status message).
Proof.
  unfold _send_resource_update.
  apply framed_bind; [auto with framed|]. intros [d|]; framed_steps.
Qed.

#[local] Hint Resolve framed_send_resource_update : framed.

Lemma framed_terminate p status message : framed (terminate p status message).
Proof.
  unfold terminate, ResourceLogger.commit_termination, time_sleep.
  framed_steps.
  match goal with b : bool |- _ => destruct b end; auto with framed.
Qed.

#[local] Hint Resolve framed_terminate : framed.

Lemma framed_check_timeout p : framed (check_timeout p).
Proof.
  unfold check_timeout. destruct (negb (started p)); [|auto with framed].
  framed_steps. destruct (timeout p); auto with framed.
  destruct (num_ltb _ _); framed_steps.
Qed.

Lemma framed_for_each {A} (l : list A) (body : A → M T unit) :
  (∀ x, framed (body x)) → framed (for_each l body).
Proof.
  intros Hbody. induction l as [|x l IH]; cbn [for_each]; [auto with framed|].
  apply framed_bind; auto.
Qed.

Lemma framed_select {A} (l : list A) (test : A → M T bool) :
  (∀ x, framed (test x)) → framed (select l test).
Proof.
  intros Htest. induction l as [|x l IH]; cbn [select]; [auto with framed|].
  apply framed_bind; [auto|]. intros b.
  apply framed_bind; [auto|]. auto with framed.
Qed.

Lemma framed_shutdown running waiting : framed (shutdown running waiting).
Proof.
  unfold shutdown, queue_close.
  apply framed_bind;
    [apply framed_for_each; intros; apply framed_terminate|]. intros _.
  apply framed_bind;
    [apply framed_for_each; intros; apply framed_terminate|]. intros _.
  auto with framed.
Qed.

(** Removing elements reads and writes nothing and leaves a sublist. *)
Lemma remove_all_sublist (l s : list (EnqueuedProcess T)) (w : World T) s' w' :
  remove_all l s w = (Ok s', w') → w' = w ∧ s' `sublist_of` s.
Proof.
  revert s. induction l as [|p l IH]; intros s; cbn [remove_all].
  - by intros [-> ->]%ret_Ok.
  - unfold bind, lift, set_remove. destruct (set_mem p s); [|done].
    intros [-> Hsub]%IH. split; [done|].
    etrans; [done|]. apply sublist_filter.
Qed.

Lemma reap_sublist running (w : World T) running' w' :
  reap running w = (Ok running', w') → w' = w ∧ running' `sublist_of` running.
Proof.
  unfold reap, bind.
  rewrite (select_pure finished
             (λ p, started p = true ∧ is_Some (exit_code w p)))
    by (intros x; exact (finished_run x w)).
  apply remove_all_sublist.
Qed.

Lemma evict_sublist waiting (w : World T) waiting' w' :
  evict waiting w = (Ok waiting', w') →
  frame w w' ∧ waiting' `sublist_of` waiting.
Proof.
  unfold evict. intros (l & w1 & Hsel & [-> Hsub]%remove_all_sublist)%bind_Ok.
  split; [|done].
  eapply framed_select; [|done]. intros; apply framed_check_timeout.
Qed.

Lemma Forall_sublist {A} (P : A → Prop) (l1 l2 : list A) :
  l1 `sublist_of` l2 → Forall P l2 → Forall P l1.
Proof.
  intros Hsub Hall. apply Forall_forall. intros x Hx.
  eapply (proj1 (Forall_forall _ _) Hall). by eapply elem_of_sublist.
Qed.

(** The invariant survives a framed step and the removal of elements. *)
Lemma sets_inv_frame running waiting (w : World T) running' waiting' w' :
  sets_inv running waiting w →
  frame w w' →
  running' `sublist_of` running →
  waiting' `sublist_of` waiting →
  sets_inv running' waiting' w'.
Proof.
  intros (Hnd & Hlt & Hinit) [Hn Hp] Hr Hw.
  assert (Hsub : running' ++ waiting' `sublist_of` running ++ waiting)
    by by apply sublist_app.
  split; [|split].
  - eapply sublist_NoDup; [done|]. by apply fmap_sublist.
  - rewrite Hn. by eapply Forall_sublist.
  - eapply Forall_sublist; [done|].
    eapply Forall_impl; [done|]. intros p [Hs Hst]. auto.
Qed.

(** A new wrapper put into [waiting_processes]. *)
Lemma submit_inv (data : pyval T) running waiting (w : World T) waiting' w' :
  sets_inv running waiting w →
  submit data waiting w = (Ok waiting', w') →
  sets_inv running waiting' w'.
Proof.
  intros (Hnd & Hlt & Hinit). unfold submit.
  intros ([[func tmo] args] & w1 & [= _ <-] & Hrest)%bind_Ok.
  apply bind_Ok in Hrest as (p & w2 & Hinitp & [<- <-]%ret_Ok).
  unfold EnqueuedProcess_init in Hinitp.
  apply bind_Ok in Hinitp as (oid & w3 & Hnew & Hinitp).
  unfold Process_new in Hnew.
  apply bind_Ok in Hnew as (elems & w4 & [= _ <-] & [= <- <-]).
  apply bind_Ok in Hinitp as (a0 & w5 & [= _ <-] & Hinitp).
  apply bind_Ok in Hinitp as (c & w6 & [= _ <-] & Hinitp).
  apply bind_Ok in Hinitp as (t & w7 & [= <- <-] & [<- <-]%ret_Ok).
  set (p := {| process := next_oid w |}).
  assert (Hold : ∀ oid, proc_state w oid = Initial →
                 proc_state (T:=T) (set_reads (S (reads w))
                   (set_next_oid (S (next_oid w))
                      (set_procs (<[next_oid w := Initial]> (procs w)) w)))
                   oid = Initial).
  { intros oid Hst. unfold proc_state in *. cbn.
    destruct (decide (next_oid w = oid)) as [->|Hne].
    - by rewrite lookup_insert_eq.
    - by rewrite lookup_insert_ne. }
  assert (Hfresh : process p ∉ process <$> (running ++ waiting)).
  { intros (q & Heq & Hq)%list_elem_of_fmap.
    apply (proj1 (Forall_forall _ _) Hlt) in Hq. cbn in Heq. lia. }
  unfold set_add. destruct (set_mem p waiting).
  - split; [done|]. split.
    + eapply Forall_impl; [done|]. cbn. lia.
    + eapply Forall_impl; [done|]. intros q [Hs Hst]. auto.
  - unfold sets_inv. rewrite app_assoc. split; [|split].
    + rewrite fmap_app. cbn [fmap list_fmap].
      apply NoDup_app. split; [done|]. split; [|apply NoDup_singleton].
      intros x Hx ->%list_elem_of_singleton. done.
    + apply Forall_app. split.
      * eapply Forall_impl; [done|]. cbn. lia.
      * apply Forall_singleton. cbn. lia.
    + apply Forall_app. split.
      * eapply Forall_impl; [done|]. intros q [Hs Hst]. auto.
      * apply Forall_singleton. split; [done|]. unfold proc_state. cbn.
        by rewrite lookup_insert_eq.
Qed.

(** One wrapper moved from [waiting_processes] to [running_procs]. *)
Lemma admission_inv (cfg : Config) running waiting (w : World T)
    running' waiting' w' :
  sets_inv running waiting w →
  admission cfg running waiting w = (Ok (running', waiting'), w') →
  sets_inv running' waiting' w'.
Proof.
  intros Hinv. unfold admission.
  destruct (_ <? NUMBER_OF_WORKERS cfg);
    [|by intros [[= <- <-] <-]%ret_Ok].
  destruct (0 <? _); [|by intros [[= <- <-] <-]%ret_Ok].
  intros ([p rest] & w1 & Hpop & Hrest)%bind_Ok.
  apply bind_Ok in Hrest as (p' & w2 & Hstart & [[= <- <-] <-]%ret_Ok).
  unfold set_pop in Hpop.
  destruct (waiting !! _) as [p0|] eqn:Hlook; [|done].
  injection Hpop as <- <- <-.
  set (i := (_ `mod` _)%nat) in *.
  unfold start, bind, Process_start in Hstart. cbn [process set_started] in Hstart.
  destruct (proc_state w (process p0)) eqn:Hst; try done.
  injection Hstart as <- <-.
  destruct Hinv as (Hnd & Hlt & Hinit).
  pose proof (delete_Permutation _ _ _ Hlook) as Hperm.
  assert (Hnd' : NoDup (process <$> (running ++ p0 :: delete i waiting)))
    by by rewrite <- Hperm.
  rewrite fmap_app in Hnd'. cbn [fmap list_fmap] in Hnd'.
  apply NoDup_app in Hnd' as (Hndr & Hdisj & Hndw).
  apply NoDup_cons in Hndw as [Hp0 Hndw].
  assert (Hrest : Forall (λ q, started q = false
                    ∧ proc_state (set_trace (trace w ++ [EvStart (process p0)])
                        (set_procs (<[process p0 := Alive]> (procs w)) w))
                        (process q) = Initial) (delete i waiting)).
  { apply Forall_forall. intros q Hq.
    assert (Hqw : q ∈ waiting) by (eapply elem_of_sublist; [done|apply sublist_delete]).
    destruct (proj1 (Forall_forall _ _) Hinit q Hqw) as [Hs Hstq].
    split; [done|]. unfold proc_state in *. cbn.
    rewrite lookup_insert_ne; [done|]. intros Heq. apply Hp0.
    rewrite Heq. by apply list_elem_of_fmap_2. }
  assert (Hlt' : Forall (λ q, (process q < next_oid w)%nat)
                   (running ++ p0 :: delete i waiting)) by by rewrite <- Hperm.
  apply Forall_app in Hlt' as [Hltr Hltw].
  apply Forall_cons in Hltw as [Hltp Hltw].
  unfold set_add. destruct (set_mem _ running).
  - split; [|split; [|done]].
    + rewrite fmap_app. apply NoDup_app. split; [done|]. split; [|done].
      intros x Hx Hx'. apply (Hdisj x Hx). by right.
    + apply Forall_app. by split.
  - split; [|split; [|done]].
    + rewrite <- app_assoc, fmap_app. cbn [fmap list_fmap app process set_started].
      apply NoDup_app. split; [done|]. split; [done|]. by apply NoDup_cons.
    + rewrite <- app_assoc. apply Forall_app. split; [done|].
      constructor; done.
Qed.

(** The invariant after the dispatch and the admission step. *)
Lemma dispatch_then_admission_inv (cfg : Config) (data : pyval T)
    running waiting (w : World T) fl running' waiting' w' :
  sets_inv running waiting w →
  dispatch_then_admission cfg data running waiting w
  = (Ok (fl, (running', waiting')), w') →
  sets_inv running' waiting' w'.
Proof.
  intros Hinv. unfold dispatch_then_admission.
  intros ([] & w1 & [= _ <-] & Hrest)%bind_Ok.
  - apply bind_Ok in Hrest as (u & w2 & Hshut & [[= _ <- <-] <-]%ret_Ok).
    eapply sets_inv_frame; [done| |done|done].
    by eapply framed_shutdown.
  - apply bind_Ok in Hrest as (sub & w2 & [= _ <-] & Hrest).
    apply bind_Ok in Hrest as (waiting1 & w3 & Hsub & Hrest).
    apply bind_Ok in Hrest as ([r1 wt1] & w4 & Hadm & [[= _ <- <-] <-]%ret_Ok).
    eapply admission_inv; [|done].
    destruct sub.
    + by eapply submit_inv.
    + by apply ret_Ok in Hsub as [<- <-].
Qed.

Lemma loop_body_inv (cfg : Config) (data : pyval T)
    running waiting (w : World T) fl running' waiting' w' :
  sets_inv running waiting w →
  loop_body cfg data running waiting w = (Ok (fl, (running', waiting')), w') →
  sets_inv running' waiting' w'.
Proof.
  intros Hinv. unfold loop_body.
  intros ([fl1 [r1 wt1]] & w1 & Hd & Hrest)%bind_Ok.
  pose proof (dispatch_then_admission_inv _ _ _ _ _ _ _ _ _ Hinv Hd) as Hinv1.
  destruct fl1.
  - apply bind_Ok in Hrest as (r2 & w2 & [-> Hr]%reap_sublist & Hrest).
    apply bind_Ok in Hrest
      as (wt2 & w3 & [Hfr Hw]%evict_sublist & [[= _ <- <-] <-]%ret_Ok).
    by eapply sets_inv_frame.
  - by apply ret_Ok in Hrest as [[= _ <- <-] <-].
Qed.

(** In every state the manager reaches from its empty sets, no wrapper is
    in its sets twice, and every waiting wrapper is not started and has a
    process that was never started. *)
Lemma manager_loop_inv (cfg : Config) (fuel : nat) (w0 : World T)
    fl running waiting w :
  manager_loop cfg fuel [] [] w0 = (Ok (fl, (running, waiting)), w) →
  sets_inv running waiting w.
Proof.
  assert (Hgen : ∀ r0 wt0 (w0 : World T),
            sets_inv r0 wt0 w0 →
            manager_loop cfg fuel r0 wt0 w0 = (Ok (fl, (running, waiting)), w) →
            sets_inv running waiting w).
  { induction fuel as [|fuel IH]; intros r0 wt0 w1 Hinv; cbn [manager_loop].
    - by intros [[= _ <- <-] <-]%ret_Ok.
    - intros (data & w2 & Hget & Hrest)%bind_Ok.
      apply bind_Ok in Hrest as ([fl1 [r1 wt1]] & w3 & Hbody & Hrest).
      assert (Hinv2 : sets_inv r0 wt0 w2).
      { eapply sets_inv_frame; [done| |done|done]. by eapply framed_queue_get. }
      pose proof (loop_body_inv _ _ _ _ _ _ _ _ _ Hinv2 Hbody) as Hinv3.
      destruct fl1.
      + by eapply IH.
      + by apply ret_Ok in Hrest as [[= _ <- <-] <-]. }
  apply Hgen. repeat split; constructor.
Qed.

(** The admission step always finds the waiting processes unstarted. *)
Lemma admission_reached (cfg : Config) (fuel : nat) (w0 : World T)
    running waiting w (data : pyval T) w1 waiting1 w2 :
  manager_loop cfg fuel [] [] w0 = (Ok (Continue, (running, waiting)), w) →
  queue_get w = (Ok data, w1) →
  (waiting1 = waiting ∧ w2 = w1) ∨ submit data waiting w1 = (Ok waiting1, w2) →
  Forall (λ p, proc_state w2 (process p) = Initial) waiting1.
Proof.
  intros Hinv%manager_loop_inv Hget Hcase.
  assert (Hinv1 : sets_inv running waiting w1).
  { eapply sets_inv_frame; [done| |done|done]. by eapply framed_queue_get. }
  assert (Hinv2 : sets_inv running waiting1 w2).
  { destruct Hcase as [[-> ->]|Hsub]; [done|]. by eapply submit_inv. }
  destruct Hinv2 as (_ & _ & Hinit).
  eapply Forall_impl; [done|]. by intros p [_ Hst].
Qed.

(** The first purge always finds a set of distinct wrappers. *)
Lemma reap_reached (cfg : Config) (fuel : nat) (w0 : World T)
    running waiting w (data : pyval T) w1 running' waiting' w' :
  manager_loop cfg fuel [] [] w0 = (Ok (Continue, (running, waiting)), w) →
  queue_get w = (Ok data, w1) →
  dispatch_then_admission cfg data running waiting w1
  = (Ok (Continue, (running', waiting')), w') →
  NoDup (process <$> running').
Proof.
  intros Hinv%manager_loop_inv Hget Hd.
  assert (Hinv1 : sets_inv running waiting w1).
  { eapply sets_inv_frame; [done| |done|done]. by eapply framed_queue_get. }
  destruct (dispatch_then_admission_inv _ _ _ _ _ _ _ _ _ Hinv1 Hd) as (Hnd & _).
  rewrite fmap_app in Hnd. by apply NoDup_app in Hnd as (Hnd & _).
Qed.

End Invariant.

(** * Further properties *)

(** ** The final status update and the store *)

Section UpdateFrame.
Context {T : Type} `{PyNum T}.

(** X1: the final status update touches one document only: every document
    stored under another key is kept; the document of the wrapper keeps its
    [http_code] and every field of its response model other than "status",
    "message", "timestamp", "datetime" and "time_delta"; no document
    appears where none was stored; and the processes are left alone.  This
    holds whether the update returns or raises. *)
Theorem send_resource_update_one_document (self : EnqueuedProcess T)
    (status message : string) (w : World T) :
  let w' := (_send_resource_update self status message w).2 in
  let key := (user_id self, resource_id self) in
  (∀ k, k ≠ key → store w' !! k = store w !! k)
  ∧ (store w !! key = None → store w' !! key = None)
  ∧ (∀ d e, store w !! key = Some (d, e) →
       ∃ d' e',
         store w' !! key = Some (d', e')
         ∧ http_code d' = http_code d
         ∧ ∀ field, field ∉ updated_fields →
             response_model d' !! field = response_model d !! field)
  ∧ procs w' = procs w.
Proof.
  intros w' key. subst w'.
  destruct (store w !! key) as [[d e]|] eqn:Hk.
  - destruct (accept_timestamp d) as [t0|] eqn:Hacc.
    + rewrite (send_resource_update_Some _ _ _ _ _ _ _ Hk Hacc). cbn.
      split; [by intros k Hne; rewrite lookup_insert_ne|].
      split; [done|]. split; [|done].
      intros d0 e0 [= <- <-]. eexists _, _.
      split; [apply lookup_insert_eq|]. split; [done|].
      intros field Hf. unfold updated_document, updated_model, updated_fields in *.
      cbn [response_model].
      rewrite !lookup_insert_ne; [done|..]; intros <-; apply Hf;
        repeat ((by left) || right).
    + assert (Hkeep : store (_send_resource_update self status message w).2
                      = store w
                      ∧ procs (_send_resource_update self status message w).2
                        = procs w).
      { unfold _send_resource_update, ResourceLogger.get. run.
        fold key. rewrite Hk. cbn. unfold py_dict_get.
        rewrite !lookup_insert_ne by done.
        unfold accept_timestamp in Hacc.
        destruct (response_model d !! "accept_timestamp") as [[]|]; try done. }
      destruct Hkeep as [-> ->]. split; [done|]. split; [done|]. split; [|done].
      intros d0 e0 [= <- <-]. by eexists _, _.
  - rewrite (send_resource_update_None _ _ _ _ Hk). cbn.
    split; [done|]. split; [done|]. split; [|done]. by intros d e Hde.
Qed.

(** X2: when the stored document has no numeric [accept_timestamp], the
    final status update raises ([KeyError] when the field is missing,
    [TypeError] when it is not a number) and nothing is committed: the
    store is as before and the only call on the logger is the [get]. *)
Theorem send_resource_update_malformed (self : EnqueuedProcess T)
    (status message : string) (w : World T) (d : Document T) (e : Z) :
  store w !! (user_id self, resource_id self) = Some (d, e) →
  accept_timestamp d = None →
  ∃ w',
    _send_resource_update self status message w
    = (Raise (if response_model d !! "accept_timestamp" is Some _
              then TypeError else KeyError), w')
    ∧ store w' = store w
    ∧ trace w' = trace w ++ [EvGet (user_id self) (resource_id self)].
Proof.
  intros Hk Hacc.
  unfold _send_resource_update, ResourceLogger.get. run.
  rewrite Hk. cbn. unfold py_dict_get.
  rewrite !lookup_insert_ne by done.
  unfold accept_timestamp in Hacc.
  destruct (response_model d !! "accept_timestamp") as [[]|]; try done;
    cbn; eauto.
Qed.

(** X3: [check_exit] does something only for an exit code other than 0:
    while the process has no exit code, or has exit code 0, it returns
    with the world unchanged; with another exit code [c] and a stored
    document, the document gets status "error" and the message "The
    process was terminated by the server: The process unexpectedly
    terminated with exit code c". *)
Theorem check_exit_reports_failure (self : EnqueuedProcess T) (w : World T) :
  match exit_code w self with
  | Some c =>
      if decide (c = 0) then check_exit self w = (Ok tt, w)
      else
        ∀ d e t0,
          store w !! (user_id self, resource_id self) = Some (d, e) →
          accept_timestamp d = Some t0 →
          ∃ w' d',
            check_exit self w = (Ok tt, w')
            ∧ store w' !! (user_id self, resource_id self)
              = Some (d', REDIS_RESOURCE_EXPIRE_TIME (config self))
            ∧ response_model d' !! "status" = Some (VStr "error")
            ∧ response_model d' !! "message"
              = Some (VStr (terminated_by_server (exit_message c)))
  | None => check_exit self w = (Ok tt, w)
  end.
Proof.
  unfold exit_code, check_exit, Process_exitcode. unfold bind at 1. cbn.
  destruct (proc_state w (process self)) as [| |c]; [done|done|].
  destruct (decide (c = 0)) as [->|Hc]; [done|].
  rewrite bool_decide_eq_true_2 by done.
  intros d e t0 Hk Hacc.
  rewrite (send_resource_update_Some _ _ _ _ _ _ _ Hk Hacc). cbn.
  eexists _, _. split; [done|]. split; [apply lookup_insert_eq|].
  unfold updated_document, updated_model. cbn [response_model].
  split; rewrite !lookup_insert_ne by done; apply lookup_insert_eq.
Qed.

End UpdateFrame.

(** ** Terminating a running job *)

Section TerminateAlive.
Context {T : Type} `{PyNum T}.

Lemma killed_processes_app (tr1 tr2 : list (Event T)) :
  killed_processes (tr1 ++ tr2) = killed_processes tr1 ++ killed_processes tr2.
Proof. apply omap_app. Qed.

Lemma killed_processes_logger (evs : list (Event T)) :
  Forall logger_event evs → killed_processes evs = [].
Proof.
  induction 1 as [|e evs He _ IH]; [done|].
  unfold killed_processes in *. cbn. rewrite IH. by destruct e.
Qed.


End TerminateAlive.

(** ** Messages *)

Section Messages.
Context {T : Type} `{PyNum T}.

Lemma append_cons (a : Ascii.ascii) (s t : string) :
  String a s +:+ t = String a (s +:+ t).
Proof. reflexivity. Qed.

Lemma append_empty (t : string) : "" +:+ t = t.
Proof. reflexivity. Qed.

Lemma prefix_spec (sub s : string) :
  String.prefix sub s = true ↔ ∃ post, s = sub +:+ post.
Proof.
  revert s. induction sub as [|a sub IH]; intros [|b s]; cbn [String.prefix].
  - split; [intros _; by exists ""|done].
  - split; [intros _; by exists (String b s)|done].
  - split; [done|]. intros [post Hp]. by rewrite append_cons in Hp.
  - destruct (Ascii.ascii_dec a b) as [->|Hne].
    + rewrite IH. split; intros [post Hp]; exists post.
      * rewrite append_cons. congruence.
      * rewrite append_cons in Hp. congruence.
    + split; [done|]. intros [post Hp]. rewrite append_cons in Hp. congruence.
Qed.

Lemma str_contains_spec (sub s : string) :
  str_contains sub s = true ↔ ∃ pre post, s = pre +:+ sub +:+ post.
Proof.
  induction s as [|a s IH]; cbn [str_contains].
  - rewrite orb_false_r, prefix_spec. split.
    + intros [post Hp]. by exists "", post.
    + intros ([|b pre] & post & Hp); [by exists post|done].
  - rewrite orb_true_iff, prefix_spec, IH. split.
    + intros [[post Hp]|(pre & post & Hp)].
      * by exists "", post.
      * exists (String a pre), post. by rewrite append_cons, Hp.
    + intros ([|b pre] & post & Hp).
      * left. by exists post.
      * right. rewrite append_cons in Hp. injection Hp as _ Hp.
        by exists pre, post.
Qed.

Lemma is_STOP_spec (v : pyval T) : is_STOP v = true ↔ v = VStr "STOP".
Proof.
  destruct v; cbn; try (split; done).
  rewrite bool_decide_eq_true. split; congruence.
Qed.

Lemma existsb_is_STOP (xs : list (pyval T)) :
  existsb is_STOP xs = true ↔ VStr "STOP" ∈ xs.
Proof.
  rewrite existsb_exists. split.
  - intros (v & Hin & ->%is_STOP_spec). by apply list_elem_of_In.
  - intros Hin. exists (VStr "STOP"). split; [by apply list_elem_of_In|].
    by apply is_STOP_spec.
Qed.

(** The messages that pass for the STOP command. *)
Lemma stop_command_shapes (data : pyval T) :
  is_stop_command data = Ok true
  ↔ (∃ pre post, data = VStr (pre +:+ "STOP" +:+ post))
    ∨ (∃ xs, (data = VTuple xs ∨ data = VList xs) ∧ VStr "STOP" ∈ xs).
Proof.
  destruct data as [|s|x|xs|xs|f|c]; cbn;
    try (split; [done|by intros [(?&?&?)|(?&[?|?]&?)]]).
  - split.
    + intros [= (pre & post & ->)%str_contains_spec]. left. eauto.
    + intros [(pre & post & [= ->])|(xs & [?|?] & _)]; try done.
      f_equal. apply str_contains_spec. eauto.
  - split.
    + intros [= Hex%existsb_is_STOP]. right. eauto.
    + intros [(? & ? & ?)|(ys & [[= <-]|?] & Hin)]; try done.
      f_equal. by apply existsb_is_STOP.
  - split.
    + intros [= Hex%existsb_is_STOP]. right. eauto.
    + intros [(? & ? & ?)|(ys & [?|[= <-]] & Hin)]; try done.
      f_equal. by apply existsb_is_STOP.
Qed.

(** X5: any message that contains "STOP" is the STOP command for the
    manager: a string with "STOP" anywhere inside it, or a tuple or list
    with an element "STOP", makes the iteration do exactly what it does on
    the message "STOP" itself. *)
Theorem contains_stop_shuts_down (cfg : Config) (data : pyval T)
    (running waiting : list (EnqueuedProcess T)) (w : World T) :
  (∃ pre post, data = VStr (pre +:+ "STOP" +:+ post))
  ∨ (∃ xs, (data = VTuple xs ∨ data = VList xs) ∧ VStr "STOP" ∈ xs) →
  loop_body cfg data running waiting w
  = loop_body cfg stop_message running waiting w.
Proof.
  intros Hstop%stop_command_shapes.
  unfold loop_body, dispatch_then_admission.
  unfold bind at 2, lift at 1. rewrite Hstop.
  unfold bind at 4, lift at 2. done.
Qed.

(** X6: the submission branch makes a wrapper exactly for the messages
    that unpack into three values of which the third is a sequence whose
    first element is a context object: no other message of length 3 gets
    through it without an exception. *)
Theorem submit_succeeds_iff (data : pyval T)
    (waiting : list (EnqueuedProcess T)) (w : World T) :
  (∃ waiting' w', submit data waiting w = (Ok waiting', w'))
  ↔ ∃ func tmo args c rest,
      py_iter data = Ok [func; tmo; args]
      ∧ py_iter args = Ok (VContext c :: rest).
Proof.
  unfold submit, unpack3. split.
  - intros (waiting' & w' & ([[func tmo] args] & w1 & Hun & Hrest)%bind_Ok).
    unfold lift in Hun.
    destruct (py_iter data) as [[|a [|b [|c' [|]]]]|]; try done.
    injection Hun as <- <- <- <-.
    apply bind_Ok in Hrest as (p & w2 & Hinit & _).
    unfold EnqueuedProcess_init in Hinit.
    apply bind_Ok in Hinit as (oid & w3 & Hnew & Hinit).
    unfold Process_new in Hnew.
    apply bind_Ok in Hnew as (elems & w4 & [= Hit _] & _).
    apply bind_Ok in Hinit as (a0 & w5 & [= Hget _] & Hinit).
    apply bind_Ok in Hinit as (c & w6 & [= Hctx _] & _).
    exists a, b, c', c. unfold py_getitem0 in Hget.
    destruct a0; try done. injection Hctx as ->.
    destruct c' as [|s|x|xs|xs|f|c0]; try done.
    + cbn in Hget. destruct (String.list_ascii_of_string s); done.
    + destruct xs as [|x xs]; [done|]. injection Hget as ->. eauto.
    + destruct xs as [|x xs]; [done|]. injection Hget as ->. eauto.
  - intros (func & tmo & args & c & rest & -> & Hargs).
    assert (Hshape : args = VTuple (VContext c :: rest)
                     ∨ args = VList (VContext c :: rest)).
    { destruct args as [|s|x|xs|xs|f|c0]; try done.
      - cbn in Hargs. destruct (String.list_ascii_of_string s); done.
      - left. cbn in Hargs. congruence.
      - right. cbn in Hargs. congruence. }
    destruct Hshape as [-> | ->]; eexists _, _; reflexivity.
Qed.

(** X7: a submission built by [enqueue_job] without a context in front of
    its arguments ends the iteration with an exception: [IndexError] when
    there are no arguments, [AttributeError] when the first argument is
    not a context.  Nothing was started, terminated or stored. *)
Theorem malformed_submission_raises (cfg : Config) (tmo func : pyval T)
    (args : list (pyval T))
    (running waiting : list (EnqueuedProcess T)) (w : World T) :
  is_STOP func = false →
  is_STOP tmo = false →
  match args with VContext _ :: _ => False | _ => True end →
  ∃ w',
    loop_body cfg (job_message tmo func args) running waiting w
    = (Raise match args with [] => IndexError | _ => AttributeError end, w')
    ∧ trace w' = trace w
    ∧ store w' = store w.
Proof.
  intros Hf Ht Hargs.
  unfold loop_body, dispatch_then_admission.
  unfold bind at 2, lift at 1. rewrite job_message_stop, Hf, Ht.
  cbn [orb]. unfold bind at 2, lift at 1. rewrite job_message_submission.
  destruct args as [|[] rest]; try done; eexists; (split; [reflexivity|done]).
Qed.

End Messages.

(** ** The manager as a whole *)

Section Whole.
Context {T : Type} `{PyNum T}.
Implicit Types (running waiting : list (EnqueuedProcess T)).

Lemma manager_loop_final (cfg : Config) (n m : nat) running waiting
    (w0 : World T) res w :
  manager_loop cfg n running waiting w0 = (res, w) →
  ended res →
  (n ≤ m)%nat →
  manager_loop cfg m running waiting w0 = (res, w).
Proof.
  revert m running waiting w0.
  induction n as [|n IH]; intros m running waiting w0 Hrun Hend Hle.
  - cbn in Hrun. by injection Hrun as <- <-.
  - destruct m as [|m]; [lia|]. cbn [manager_loop] in *.
    unfold bind at 1 in Hrun. unfold bind at 1.
    destruct (queue_get w0) as [[data|e] w1]; [|done].
    unfold bind at 1 in Hrun. unfold bind at 1.
    destruct (loop_body cfg data running waiting w1)
      as [[[[] [r1 wt1]]|e] w2]; [|done|done].
    apply IH; [done|done|lia].
Qed.

(** X8: once the manager has left its loop in some iteration, by the
    [return] of the STOP branch or by an exception, nothing more happens:
    however many further iterations it is given, the result is the same,
    the queue is closed last, and the messages still in the queue are
    never read. *)
Theorem manager_outcome_final (cfg : Config) (n m : nat)
    (w0 : World T) res w :
  manager_loop cfg n [] [] w0 = (res, w) →
  ended res →
  (n ≤ m)%nat →
  start_process_queue_manager cfg m w0
  = (res, set_trace (trace w ++ [EvQueueClose]) w).
Proof.
  intros Hrun Hend Hle.
  unfold start_process_queue_manager, finally.
  by rewrite (manager_loop_final cfg n m [] [] w0 res w Hrun Hend Hle).
Qed.

(** X9: in every iteration the manager reaches, the admission step
    returns: [pop] never finds [waiting_processes] empty and [start] is
    never called on a process that was started before.  The waiting set of
    the step is the one of the last iteration, or that set with the new
    wrapper of this iteration. *)
Theorem admission_never_raises (cfg : Config) (fuel : nat) (w0 : World T)
    running waiting w (data : pyval T) w1 waiting1 w2 :
  manager_loop cfg fuel [] [] w0 = (Ok (Continue, (running, waiting)), w) →
  queue_get w = (Ok data, w1) →
  (waiting1 = waiting ∧ w2 = w1) ∨ submit data waiting w1 = (Ok waiting1, w2) →
  ∃ sets w3, admission cfg running waiting1 w2 = (Ok sets, w3).
Proof.
  intros Hloop Hget Hcase.
  pose proof (admission_reached cfg fuel w0 running waiting w data w1
                waiting1 w2 Hloop Hget Hcase) as Hinit.
  destruct (decide (Z.of_nat (length running) < NUMBER_OF_WORKERS cfg
                    ∧ waiting1 ≠ [])) as [[Hlt Hne]|Hnot].
  - destruct (admission_starts_one cfg running waiting1 w2 Hlt Hne Hinit)
      as (p & _ & ->). eauto.
  - rewrite (admission_idle cfg running waiting1 w2 Hnot). eauto.
Qed.

Lemma set_add_Forall (P : EnqueuedProcess T → Prop) p running :
  P p → Forall P running → Forall P (set_add p running).
Proof.
  intros Hp Hall. unfold set_add. destruct (set_mem p running); [done|].
  apply Forall_app. split; [done|]. by apply Forall_singleton.
Qed.

Lemma admission_running_started (cfg : Config) running waiting (w : World T)
    running' waiting' w' :
  Forall (λ p, started p = true) running →
  admission cfg running waiting w = (Ok (running', waiting'), w') →
  Forall (λ p, started p = true) running'.
Proof.
  intros Hall. unfold admission.
  destruct (_ <? NUMBER_OF_WORKERS cfg);
    [|by intros [[= <- <-] _]%ret_Ok].
  destruct (0 <? _); [|by intros [[= <- <-] _]%ret_Ok].
  intros ([p rest] & w1 & _ & Hrest)%bind_Ok.
  apply bind_Ok in Hrest as (p' & w2 & Hstart & [[= <- <-] _]%ret_Ok).
  unfold start in Hstart.
  apply bind_Ok in Hstart as (u & w3 & _ & [<- _]%ret_Ok).
  by apply set_add_Forall.
Qed.

Lemma loop_body_running_started (cfg : Config) (data : pyval T)
    running waiting (w : World T) fl running' waiting' w' :
  Forall (λ p, started p = true) running →
  loop_body cfg data running waiting w = (Ok (fl, (running', waiting')), w') →
  Forall (λ p, started p = true) running'.
Proof.
  intros Hall. unfold loop_body.
  intros ([fl1 [r1 wt1]] & w1 & Hd & Hrest)%bind_Ok.
  assert (Hall1 : Forall (λ p, started p = true) r1).
  { unfold dispatch_then_admission in Hd.
    apply bind_Ok in Hd as ([] & w2 & _ & Hd).
    - by apply bind_Ok in Hd as (u & w3 & _ & [[= _ <- _] _]%ret_Ok).
    - apply bind_Ok in Hd as (sub & w3 & _ & Hd).
      apply bind_Ok in Hd as (wt2 & w4 & _ & Hd).
      apply bind_Ok in Hd as ([r2 wt3] & w5 & Hadm & [[= _ <- _] _]%ret_Ok).
      by eapply admission_running_started. }
  destruct fl1.
  - apply bind_Ok in Hrest as (r2 & w2 & [_ Hsub]%reap_sublist & Hrest).
    apply bind_Ok in Hrest as (wt2 & w3 & _ & [[= _ <- _] _]%ret_Ok).
    by eapply Forall_sublist.
  - by apply ret_Ok in Hrest as [[= _ <- _] _].
Qed.

Lemma manager_loop_running_started (cfg : Config) (fuel : nat)
    running waiting (w : World T) fl running' waiting' w' :
  Forall (λ p, started p = true) running →
  manager_loop cfg fuel running waiting w
  = (Ok (fl, (running', waiting')), w') →
  Forall (λ p, started p = true) running'.
Proof.
  revert running waiting w. induction fuel as [|fuel IH];
    intros running waiting w Hall; cbn [manager_loop].
  - by intros [[= _ <- _] _]%ret_Ok.
  - intros (data & w1 & _ & Hrest)%bind_Ok.
    apply bind_Ok in Hrest as ([fl1 [r1 wt1]] & w2 & Hbody & Hrest).
    pose proof (loop_body_running_started _ _ _ _ _ _ _ _ _ Hall Hbody).
    destruct fl1.
    + by eapply IH.
    + by apply ret_Ok in Hrest as [[= _ <- _] _].
Qed.

(** X10: in every state the manager reaches from its empty sets, a
    wrapper is in one set only and there once; every wrapper in
    [running_procs] has [started] set; every wrapper in
    [waiting_processes] has [started] unset and a process that was never
    started. *)
Theorem manager_sets_partition (cfg : Config) (fuel : nat) (w0 : World T)
    fl running waiting w :
  manager_loop cfg fuel [] [] w0 = (Ok (fl, (running, waiting)), w) →
  NoDup (process <$> (running ++ waiting))
  ∧ Forall (λ p, started p = true) running
  ∧ Forall (λ p, started p = false ∧ proc_state w (process p) = Initial)
      waiting.
Proof.
  intros Hloop.
  destruct (manager_loop_inv cfg fuel w0 fl running waiting w Hloop)
    as (Hnd & _ & Hwait).
  split; [done|]. split; [|done].
  eapply manager_loop_running_started; [|done]. constructor.
Qed.

End Whole.

(** ** Calls that start nothing *)

Section Steady.
Context {T : Type} `{PyNum T}.
Implicit Types (p : EnqueuedProcess T) (running waiting : list (EnqueuedProcess T)).

Lemma steady_refl (w : World T) : steady w w.
Proof. by repeat split. Qed.

Lemma steady_trans (w1 w2 w3 : World T) :
  steady w1 w2 → steady w2 w3 → steady w1 w3.
Proof.
  intros (Ho1 & Hr1 & Hn1 & Hs1 & Hi1 & Hni1) (Ho2 & Hr2 & Hn2 & Hs2 & Hi2 & Hni2).
  repeat split; try congruence; [lia|auto|auto].
Qed.

Lemma steady_frame (w w' : World T) : steady w w' → frame w w'.
Proof. intros (_ & _ & Hn & _ & Hi & _). by split. Qed.

Lemma steady_same (w w' : World T) :
  oracle w' = oracle w → (reads w ≤ reads w')%nat → next_oid w' = next_oid w →
  started_processes (trace w') = started_processes (trace w) →
  procs w' = procs w → steady w w'.
Proof.
  intros Ho Hr Hn Hs Hp. unfold steady, proc_state. rewrite Hp.
  by repeat split.
Qed.

Lemma started_processes_app (tr1 tr2 : list (Event T)) :
  started_processes (tr1 ++ tr2)
  = started_processes tr1 ++ started_processes tr2.
Proof. apply omap_app. Qed.

Lemma steadied_ret {A} (a : A) : steadied (ret (T:=T) a).
Proof. intros w r w' [= _ <-]. apply steady_refl. Qed.

Lemma steadied_lift {A} (r : result A) : steadied (lift (T:=T) r).
Proof. intros w r' w' [= _ <-]. apply steady_refl. Qed.

Lemma steadied_bind {A B} (m : M T A) (k : A → M T B) :
  steadied m → (∀ a, steadied (k a)) → steadied (bind m k).
Proof.
  intros Hm Hk w r w'. unfold bind.
  destruct (m w) as [[a|e] w1] eqn:Hmw.
  - intros Hkw. eapply steady_trans; [by eapply Hm | by eapply Hk].
  - intros [= _ <-]. by eapply Hm.
Qed.

Lemma steadied_emit (e : Event T) :
  match e with EvStart _ => False | _ => True end → steadied (emit e).
Proof.
  intros He w r w' [= _ <-]. apply steady_same; try done.
  unfold set_trace. cbn [trace].
  rewrite started_processes_app. destruct e; try done; apply app_nil_r.
Qed.

Lemma steadied_time_time : steadied (time_time (T:=T)).
Proof. intros w r w' [= _ <-]. apply steady_same; cbn; try done. lia. Qed.

Lemma steadied_datetime_now : steadied (datetime_now (T:=T)).
Proof. intros w r w' [= _ <-]. apply steady_same; cbn; try done. lia. Qed.

Lemma steadied_pause : steadied (pause (T:=T)).
Proof.
  intros w r w' [= _ <-]. repeat split; try done.
  - intros oid Hst. rewrite <- Hst. apply (proc_state_pause w oid).
    by rewrite Hst.
  - intros oid. unfold proc_state. cbn. rewrite lookup_settle.
    destruct (procs w !! oid) as [[]|]; cbn; try done.
    by destruct (fate _ _ _).
Qed.

Lemma steadied_queue_get : steadied (queue_get (T:=T)).
Proof.
  apply steadied_bind; [apply steadied_pause|]. intros _ w r w'.
  destruct (incoming w); intros [= _ <-]; by apply steady_same.
Qed.

Lemma steadied_Process_is_alive oid : steadied (Process_is_alive (T:=T) oid).
Proof. intros w r w' [= _ <-]. apply steady_refl. Qed.

Lemma steadied_Process_terminate oid : steadied (Process_terminate (T:=T) oid).
Proof.
  intros w r w'. unfold Process_terminate.
  destruct (proc_state w oid) eqn:Hst; intros [= _ <-]; try apply steady_refl.
  repeat split; try done.
  - unfold set_trace, set_procs. cbn [trace].
    rewrite started_processes_app. apply app_nil_r.
  - intros oid' Hst'. unfold proc_state in *. cbn.
    rewrite lookup_insert_ne; [done|]. intros ->. congruence.
  - intros oid' Hst'. unfold proc_state in *. cbn.
    destruct (decide (oid = oid')) as [->|Hne].
    + by rewrite lookup_insert_eq.
    + by rewrite lookup_insert_ne.
Qed.

Lemma steadied_logger_get user resource :
  steadied (ResourceLogger.get (T:=T) user resource).
Proof.
  apply steadied_bind; [by apply steadied_emit|].
  intros _ w r w' [= _ <-]. apply steady_refl.
Qed.

Lemma steadied_logger_commit user resource (d : Document T) ttl :
  steadied (ResourceLogger.commit user resource d ttl).
Proof.
  apply steadied_bind; [by apply steadied_emit|].
  intros _ w r w' [= _ <-]. by apply steady_same.
Qed.

Lemma steadied_commit_termination user resource :
  steadied (ResourceLogger.commit_termination (T:=T) user resource).
Proof. by apply steadied_emit. Qed.

Lemma steadied_queue_close : steadied (queue_close (T:=T)).
Proof. by apply steadied_emit. Qed.

#[local] Hint Resolve steadied_ret steadied_lift steadied_time_time
  steadied_datetime_now steadied_pause steadied_queue_get
  steadied_Process_is_alive steadied_Process_terminate steadied_logger_get
  steadied_logger_commit steadied_commit_termination steadied_queue_close
  : steadied.

Ltac steadied_steps :=
  first [ solve [auto with steadied]
        | apply steadied_bind; [steadied_steps | intros ?; steadied_steps]
        | idtac ].

Lemma steadied_send_resource_update p status message :
  steadied (_send_resource_update p status message).
Proof.
  unfold _send_resource_update.
  apply steadied_bind; [auto with steadied|]. intros [d|]; steadied_steps.
Qed.

#[local] Hint Resolve steadied_send_resource_update : steadied.

Lemma steadied_terminate p status message :
  steadied (terminate p status message).
Proof.
  unfold terminate, time_sleep.
  apply steadied_bind; [by apply steadied_emit|]. intros _.
  steadied_steps.
  match goal with b : bool |- _ => destruct b end; auto with steadied.
Qed.

#[local] Hint Resolve steadied_terminate : steadied.

Lemma steadied_check_timeout p : steadied (check_timeout p).
Proof.
  unfold check_timeout. destruct (negb (started p)); [|auto with steadied].
  steadied_steps. destruct (timeout p); auto with steadied.
  destruct (num_ltb _ _); steadied_steps.
Qed.

Lemma steadied_for_each {A} (l : list A) (body : A → M T unit) :
  (∀ x, steadied (body x)) → steadied (for_each l body).
Proof.
  intros Hbody. induction l as [|x l IH]; cbn [for_each]; [auto with steadied|].
  apply steadied_bind; auto.
Qed.

Lemma steadied_select {A} (l : list A) (test : A → M T bool) :
  (∀ x, steadied (test x)) → steadied (select l test).
Proof.
  intros Htest. induction l as [|x l IH]; cbn [select]; [auto with steadied|].
  apply steadied_bind; [auto|]. intros b.
  apply steadied_bind; [auto|]. auto with steadied.
Qed.

Lemma steadied_shutdown running waiting : steadied (shutdown running waiting).
Proof.
  unfold shutdown.
  apply steadied_bind;
    [apply steadied_for_each; intros; apply steadied_terminate|]. intros _.
  apply steadied_bind;
    [apply steadied_for_each; intros; apply steadied_terminate|]. intros _.
  auto with steadied.
Qed.

End Steady.

(** ** The purge of the waiting processes *)

Section Evict.
Context {T : Type} `{PyNum T}.
Implicit Types (p : EnqueuedProcess T) (waiting : list (EnqueuedProcess T)).

Lemma waited_earlier (late : bool) (w w1 w' : World T) p :
  steady w w1 → waited late w1 w' p → waited late w w' p.
Proof.
  intros (Ho & Hr & _) (n & t & Hn & Ht & Hlate).
  exists n, t. rewrite <- Ho. split; [lia|done].
Qed.

(** One call of [check_timeout] on a waiting wrapper. *)
Lemma check_timeout_step p (t : T) (w : World T) :
  started p = false →
  timeout p = VNum t →
  store_ok w →
  let late := num_ltb t (num_sub (clock (oracle w) (reads w)) (init_time p)) in
  ∃ w' evs,
    check_timeout p w = (Ok late, w')
    ∧ trace w' = trace w ++ evs
    ∧ terminate_calls evs
      = (if late then [(process p, "timeout", timeout_message t)] else [])
    ∧ Forall no_start_no_close evs
    ∧ store_ok w'
    ∧ steady w w'
    ∧ (reads w < reads w')%nat.
Proof.
  intros Hs Ht Hok late.
  pose proof (steadied_check_timeout p w) as Hsteady.
  unfold check_timeout, time_time in *. rewrite Hs, Ht in *.
  revert Hsteady. run. fold late. intros Hsteady.
  destruct late.
  - destruct (terminate_run p "timeout" (timeout_message t)
                (set_reads (S (reads w)) w)) as (w' & evs & Hrun & Htr & Hq & Hok');
      [done|].
    rewrite Hrun in *. eexists _, _. split; [done|]. split; [exact Htr|].
    split.
    { change (terminate_calls (?e :: evs)) with (terminate_calls ([e] ++ evs)).
      by rewrite terminate_calls_app, (terminate_calls_quiet evs Hq). }
    split.
    { constructor; [done|]. eapply Forall_impl; [done|]. apply quiet_no_start. }
    split; [done|]. split; [by eapply Hsteady|].
    pose proof (steadied_terminate p "timeout" (timeout_message t) _ _ _ Hrun)
      as (_ & Hr & _). cbn in Hr. lia.
  - eexists _, []. split; [done|]. cbn. rewrite app_nil_r.
    repeat split; try done; [by eapply Hsteady|lia].
Qed.

(** The scan of the purge. *)
Lemma select_check_timeout waiting (w : World T) :
  store_ok w →
  Forall (λ p, started p = false ∧ ∃ t, timeout p = VNum t) waiting →
  ∃ evicted w' evs,
    select waiting check_timeout w = (Ok evicted, w')
    ∧ evicted `sublist_of` waiting
    ∧ trace w' = trace w ++ evs
    ∧ terminate_calls evs
      = (λ p, (process p, "timeout", timeout_text p)) <$> evicted
    ∧ Forall no_start_no_close evs
    ∧ store_ok w'
    ∧ steady w w'
    ∧ Forall (waited true w w') evicted
    ∧ Forall (λ p, p ∈ evicted ∨ waited false w w' p) waiting.
Proof.
  revert w. induction waiting as [|p waiting IH]; intros w Hok Hall.
  - exists [], w, []. cbn. rewrite app_nil_r.
    repeat split; done.
  - apply Forall_cons in Hall as [[Hs [t Ht]] Hall].
    destruct (check_timeout_step p t w Hs Ht Hok)
      as (w1 & evs1 & Hrun1 & Htr1 & Hc1 & Hn1 & Hok1 & Hst1 & Hr1).
    destruct (IH w1 Hok1 Hall)
      as (evicted & w2 & evs2 & Hrun2 & Hsub & Htr2 & Hc2 & Hn2 & Hok2 & Hst2
          & Hlate & Hkept).
    set (late := num_ltb t (num_sub (clock (oracle w) (reads w)) (init_time p)))
      in *.
    assert (Hhead : waited late w w2 p).
    { exists (reads w), t. split; [|done].
      destruct Hst2 as (_ & Hr2 & _). lia. }
    exists (if late then p :: evicted else evicted), w2, (evs1 ++ evs2).
    cbn [select]. unfold bind at 1. rewrite Hrun1.
    unfold bind at 1. rewrite Hrun2. unfold ret.
    split; [done|].
    split; [destruct late; [by apply sublist_skip|by apply sublist_cons]|].
    split; [by rewrite Htr2, Htr1, <- app_assoc|].
    split.
    { rewrite terminate_calls_app, Hc1, Hc2. destruct late; [|done].
      cbn. unfold timeout_text. by rewrite Ht. }
    split; [by apply Forall_app|]. split; [done|].
    split; [by eapply steady_trans|].
    assert (Hlate' : Forall (waited true w w2) evicted).
    { eapply Forall_impl; [done|]. intros q. by apply waited_earlier. }
    split.
    + destruct late eqn:Hl; [|done]. by constructor.
    + constructor.
      * destruct late eqn:Hl; [left; by left|by right].
      * eapply Forall_impl; [done|]. intros q [Hq|Hq].
        -- left. destruct late; [by right|done].
        -- right. by eapply waited_earlier.
Qed.

(** X11: the purge of the waiting processes, on wrappers that are not
    started and have a numeric timeout: it returns; the wrappers it
    removes are exactly the ones it terminated, each once, with status
    "timeout" and the message of [check_timeout]; each of them had waited
    longer than its timeout at a clock reading taken during the purge, and
    each wrapper it keeps had not; nothing is started. *)
Theorem evict_terminates_removed waiting (w : World T) :
  store_ok w →
  Forall (λ p, started p = false ∧ ∃ t, timeout p = VNum t) waiting →
  NoDup (process <$> waiting) →
  ∃ evicted w' evs,
    evict waiting w
    = (Ok (filter (λ p, process p ∉ process <$> evicted) waiting), w')
    ∧ evicted `sublist_of` waiting
    ∧ trace w' = trace w ++ evs
    ∧ terminate_calls evs
      = (λ p, (process p, "timeout", timeout_text p)) <$> evicted
    ∧ Forall no_start_no_close evs
    ∧ Forall (waited true w w') evicted
    ∧ Forall (waited false w w')
        (filter (λ p, process p ∉ process <$> evicted) waiting).
Proof.
  intros Hok Hall Hnd.
  destruct (select_check_timeout waiting w Hok Hall)
    as (evicted & w' & evs & Hrun & Hsub & Htr & Hc & Hn & _ & _ & Hlate & Hkept).
  exists evicted, w', evs. unfold evict, bind. rewrite Hrun.
  rewrite remove_all_run.
  - repeat split; try done.
    apply Forall_forall. intros q [Hq Hin]%list_elem_of_filter.
    destruct (proj1 (Forall_forall _ _) Hkept q Hin) as [Hev|Hw]; [|done].
    exfalso. apply Hq. by apply list_elem_of_fmap_2.
  - eapply sublist_NoDup; [done|]. by apply fmap_sublist.
  - intros q Hq. by eapply elem_of_sublist.
Qed.

End Evict.

(** ** No process is started twice *)

Section Starts.
Context {T : Type} `{PyNum T}.
Implicit Types (p : EnqueuedProcess T) (running waiting : list (EnqueuedProcess T)).

Lemma starts_inv_steady (w w' : World T) :
  starts_inv w → steady w w' → starts_inv w'.
Proof.
  intros [Hnd Hall] (_ & _ & Hn & Hs & _ & Hni). unfold starts_inv.
  rewrite Hs, Hn. split; [done|].
  eapply Forall_impl; [done|]. intros oid [Hlt Hst]. auto.
Qed.

Lemma submit_starts_inv (data : pyval T) waiting (w : World T) waiting' w' :
  starts_inv w →
  submit data waiting w = (Ok waiting', w') →
  starts_inv w'.
Proof.
  intros [Hnd Hall]. unfold submit.
  intros ([[func tmo] args] & w1 & [= _ <-] & Hrest)%bind_Ok.
  apply bind_Ok in Hrest as (p & w2 & Hinitp & [_ <-]%ret_Ok).
  unfold EnqueuedProcess_init in Hinitp.
  apply bind_Ok in Hinitp as (oid & w3 & Hnew & Hinitp).
  unfold Process_new in Hnew.
  apply bind_Ok in Hnew as (elems & w4 & [= _ <-] & [= <- <-]).
  apply bind_Ok in Hinitp as (a0 & w5 & [= _ <-] & Hinitp).
  apply bind_Ok in Hinitp as (c & w6 & [= _ <-] & Hinitp).
  apply bind_Ok in Hinitp as (t & w7 & [= <- <-] & [_ <-]%ret_Ok).
  split; [done|]. cbn.
  eapply Forall_impl; [done|]. cbn. intros oid [Hlt Hst]. split; [lia|].
  unfold proc_state in *. cbn. rewrite lookup_insert_ne; [done|lia].
Qed.

Lemma admission_starts_inv (cfg : Config) running waiting (w : World T)
    running' waiting' w' :
  sets_inv running waiting w →
  starts_inv w →
  admission cfg running waiting w = (Ok (running', waiting'), w') →
  starts_inv w'.
Proof.
  intros (_ & Hlt & _) [Hnd Hall]. unfold admission.
  destruct (_ <? NUMBER_OF_WORKERS cfg);
    [|by intros [_ <-]%ret_Ok].
  destruct (0 <? _); [|by intros [_ <-]%ret_Ok].
  intros ([p rest] & w1 & Hpop & Hrest)%bind_Ok.
  apply bind_Ok in Hrest as (p' & w2 & Hstart & [_ <-]%ret_Ok).
  unfold set_pop in Hpop.
  destruct (waiting !! _) as [p0|] eqn:Hlook; [|done].
  injection Hpop as <- _ <-.
  unfold start, bind, Process_start in Hstart. cbn [process set_started] in Hstart.
  destruct (proc_state w (process p0)) eqn:Hst; try done.
  injection Hstart as _ <-.
  assert (Hp0 : (process p0 < next_oid w)%nat).
  { apply (proj1 (Forall_forall _ _) Hlt). apply elem_of_app. right.
    by eapply list_elem_of_lookup_2. }
  unfold starts_inv, set_trace, set_procs. cbn [trace next_oid].
  rewrite started_processes_app.
  change (started_processes [EvStart (process p0)]) with [process p0].
  split.
  - apply NoDup_app. split; [done|]. split; [|apply NoDup_singleton].
    intros oid Hin ->%list_elem_of_singleton.
    by destruct (proj1 (Forall_forall _ _) Hall _ Hin).
  - apply Forall_app. split.
    + eapply Forall_impl; [done|]. intros oid [Hlt' Hni]. split; [done|].
      unfold proc_state in *. cbn.
      destruct (decide (process p0 = oid)) as [->|Hne].
      * by rewrite lookup_insert_eq.
      * by rewrite lookup_insert_ne.
    + apply Forall_singleton. split; [done|].
      unfold proc_state. cbn. by rewrite lookup_insert_eq.
Qed.

Lemma loop_body_starts_inv (cfg : Config) (data : pyval T)
    running waiting (w : World T) fl running' waiting' w' :
  sets_inv running waiting w →
  starts_inv w →
  loop_body cfg data running waiting w = (Ok (fl, (running', waiting')), w') →
  starts_inv w'.
Proof.
  intros Hinv Hst. unfold loop_body.
  intros ([fl1 [r1 wt1]] & w1 & Hd & Hrest)%bind_Ok.
  assert (Hst1 : starts_inv w1).
  { unfold dispatch_then_admission in Hd.
    apply bind_Ok in Hd as ([] & w2 & [= _ <-] & Hd).
    - apply bind_Ok in Hd as (u & w3 & Hshut & [_ <-]%ret_Ok).
      eapply starts_inv_steady; [done|]. by eapply steadied_shutdown.
    - apply bind_Ok in Hd as (sub & w3 & [= _ <-] & Hd).
      apply bind_Ok in Hd as (wt2 & w4 & Hsub & Hd).
      apply bind_Ok in Hd as ([r2 wt3] & w5 & Hadm & [_ <-]%ret_Ok).
      destruct sub.
      + eapply admission_starts_inv; [| |done].
        * by eapply submit_inv.
        * by eapply submit_starts_inv.
      + apply ret_Ok in Hsub as [<- <-].
        by eapply admission_starts_inv. }
  destruct fl1.
  - apply bind_Ok in Hrest as (r2 & w2 & [-> _]%reap_sublist & Hrest).
    apply bind_Ok in Hrest as (wt2 & w3 & Hev & [_ <-]%ret_Ok).
    unfold evict in Hev.
    apply bind_Ok in Hev as (l & w4 & Hsel & [-> _]%remove_all_sublist).
    eapply starts_inv_steady; [done|].
    eapply steadied_select; [|done]. intros; apply steadied_check_timeout.
  - by apply ret_Ok in Hrest as [_ <-].
Qed.

Lemma manager_loop_starts_inv (cfg : Config) (fuel : nat)
    running waiting (w : World T) fl running' waiting' w' :
  sets_inv running waiting w →
  starts_inv w →
  manager_loop cfg fuel running waiting w
  = (Ok (fl, (running', waiting')), w') →
  starts_inv w'.
Proof.
  revert running waiting w. induction fuel as [|fuel IH];
    intros running waiting w Hinv Hst; cbn [manager_loop].
  - by intros [_ <-]%ret_Ok.
  - intros (data & w1 & Hget & Hrest)%bind_Ok.
    apply bind_Ok in Hrest as ([fl1 [r1 wt1]] & w2 & Hbody & Hrest).
    pose proof (steadied_queue_get _ _ _ Hget) as Hsteady.
    assert (Hinv1 : sets_inv running waiting w1).
    { eapply sets_inv_frame; [done|by apply steady_frame|done|done]. }
    assert (Hst1 : starts_inv w1) by by eapply starts_inv_steady.
    pose proof (loop_body_inv _ _ _ _ _ _ _ _ _ Hinv1 Hbody) as Hinv2.
    pose proof (loop_body_starts_inv _ _ _ _ _ _ _ _ _ Hinv1 Hst1 Hbody) as Hst2.
    destruct fl1.
    + by eapply IH.
    + by apply ret_Ok in Hrest as [_ <-].
Qed.


End Starts.

(** ** [StreamToLogger] *)

Section Stream.
Implicit Types (s buf line : list N) (c : N).

Lemma linebreak_is_space c : is_linebreak c = true → is_space c = true.
Proof.
  unfold is_linebreak, is_space.
  rewrite !orb_true_iff, !andb_true_iff, !N.leb_le, !N.eqb_eq.
  lia.
Qed.

Lemma rstrip_nil s : rstrip s = [] ↔ forallb is_space s = true.
Proof.
  induction s as [|c s IH]; [done|]. cbn.
  destruct (rstrip s) as [|x r].
  - rewrite (proj1 IH eq_refl), andb_true_r.
    by destruct (is_space c).
  - split; [done|]. intros [_ Hs]%andb_true_iff.
    by apply IH in Hs.
Qed.

Lemma rstrip_app_space s ws :
  forallb is_space ws = true → rstrip (s ++ ws) = rstrip s.
Proof.
  intros Hws. induction s as [|c s IH]; cbn.
  - by apply rstrip_nil.
  - by rewrite IH.
Qed.

Lemma rstrip_idem s : rstrip (rstrip s) = rstrip s.
Proof.
  induction s as [|c s IH]; [done|]. cbn.
  destruct (rstrip s) as [|x r] eqn:Hr.
  - destruct (is_space c) eqn:Hc; [done|]. cbn. by rewrite Hc.
  - change (rstrip (c :: x :: r)) with
      (match rstrip (x :: r) with
       | [] => if is_space c then [] else [c]
       | r' => c :: r'
       end).
    by rewrite IH.
Qed.

Lemma rstrip_last s c : last (rstrip s) = Some c → is_space c = false.
Proof.
  induction s as [|c0 s IH]; [done|]. cbn.
  destruct (rstrip s) as [|x r] eqn:Hr.
  - destruct (is_space c0) eqn:Hc; [done|]. cbn. by intros [= <-].
  - exact IH.
Qed.

Lemma rstrip_Forall (P : N → Prop) s : Forall P s → Forall P (rstrip s).
Proof.
  induction 1 as [|c s Hc Hs IH]; [done|]. cbn.
  destruct (rstrip s) as [|x r].
  - destruct (is_space c); by repeat constructor.
  - by constructor.
Qed.

Lemma splitlines_from_no_break (after_cr : bool) s :
  Forall (Forall (λ c, is_linebreak c = false)) (splitlines_from after_cr s).
Proof.
  revert after_cr. induction s as [|c s IH]; intros after_cr; [done|]. cbn.
  destruct (after_cr && (c =? 10)%N); [apply IH|].
  destruct (is_linebreak c) eqn:Hc.
  - constructor; [done|apply IH].
  - pose proof (IH false) as Hrest.
    destruct (splitlines_from false s) as [|line lines].
    + by repeat constructor.
    + apply Forall_cons in Hrest as [Hline Hlines].
      constructor; [by constructor|done].
Qed.

Lemma splitlines_nil s : splitlines s = [] ↔ s = [].
Proof.
  split; [|by intros ->]. destruct s as [|c s]; [done|].
  unfold splitlines. cbn. destruct (is_linebreak c); [done|].
  by destruct (splitlines_from false s).
Qed.

Lemma splitlines_one_line s :
  Forall (λ c, is_linebreak c = false) s → s ≠ [] → splitlines s = [s].
Proof.
  unfold splitlines. induction 1 as [|c s Hc Hs IH]; [done|]. intros _.
  cbn. rewrite Hc. destruct s as [|c' s]; [done|].
  by rewrite IH.
Qed.

(** X13: every call of the logger that [write] makes goes to the logger
    of the stream at its level, with a message that holds no line boundary
    and does not end with whitespace; the calls made before are kept. *)
Theorem write_logs_clean_lines (self : StreamToLogger) buf
    (log : list LogCall) :
  ∃ calls,
    write self buf log = log ++ calls
    ∧ Forall (λ call,
        call_logger call = logger self
        ∧ call_level call = log_level self
        ∧ Forall (λ c, is_linebreak c = false) (call_message call)
        ∧ (∀ c, last (call_message call) = Some c → is_space c = false)
        ∧ rstrip (call_message call) = call_message call) calls.
Proof.
  eexists. split; [reflexivity|].
  apply Forall_fmap.
  eapply Forall_impl; [apply (splitlines_from_no_break false)|].
  intros line Hline. cbn. split; [done|]. split; [done|].
  split; [by apply rstrip_Forall|]. split; [apply rstrip_last|apply rstrip_idem].
Qed.

(** X14: [write] calls the logger at all exactly when the text holds a
    character that is not whitespace: an empty text, or one of spaces and
    line ends only, logs nothing. *)
Theorem write_nothing_iff_blank (self : StreamToLogger) buf
    (log : list LogCall) :
  write self buf log = log ↔ forallb is_space buf = true.
Proof.
  unfold write. rewrite <- rstrip_nil, <- splitlines_nil. split.
  - intros Heq. apply (f_equal length) in Heq.
    rewrite length_app, length_fmap in Heq.
    destruct (splitlines (rstrip buf)); [done|]. cbn in Heq. lia.
  - intros ->. apply app_nil_r.
Qed.

(** X15: whitespace at the end of the text makes no difference to what
    [write] logs. *)
Theorem write_ignores_trailing_space (self : StreamToLogger) buf
    (ws : list N) (log : list LogCall) :
  forallb is_space ws = true →
  write self (buf ++ ws) log = write self buf log.
Proof. intros Hws. unfold write. by rewrite rstrip_app_space. Qed.

(** X16: a text without a line boundary that is not blank is logged in one
    call, with the whitespace at its end removed. *)
Theorem write_one_line (self : StreamToLogger) buf (log : list LogCall) :
  Forall (λ c, is_linebreak c = false) buf →
  forallb is_space buf = false →
  write self buf log
  = log ++ [{| call_logger := logger self; call_level := log_level self;
               call_message := rstrip buf |}].
Proof.
  intros Hbuf Hblank. unfold write.
  rewrite splitlines_one_line.
  - cbn. by rewrite rstrip_idem.
  - by apply rstrip_Forall.
  - intros Hnil%rstrip_nil. congruence.
Qed.

End Stream.

(** * Examples and instances *)

(** ** Wrapper *)

(** The stored message of the example after a final update with message
    "m": it is not "m" itself. *)
Lemma final_update_message_not_verbatim :
  ¬ final_update_spec (λ message, message) example_wrapper "error" "m"
      example_world.
Proof.
  intros Hspec.
  destruct (Hspec 100 eq_refl)
    as (d' & now & dt & _ & Hstored & _ & _ & _ & Hmsg & _).
  vm_compute in Hstored. injection Hstored as <-.
  vm_compute in Hmsg. discriminate Hmsg.
Qed.

Lemma send_resource_update_final_example :
  final_update_spec terminated_by_server example_wrapper "error" "m"
    example_world.
Proof. exact (send_resource_update_final example_wrapper "error" "m" example_world). Defined.

Lemma check_timeout_started_example :
  check_timeout (set_started true example_wrapper) example_world
  = (Ok false, example_world).
Proof.
  exact (check_timeout_started (set_started true example_wrapper)
           example_world eq_refl).
Defined.

(** The example wrapper was enqueued at 900 with timeout 10 and the clock
    shows 1000: it is evicted. *)
Lemma check_timeout_waiting_example :
  ∃ w',
    check_timeout example_wrapper example_world = (Ok true, w')
    ∧ ∃ evs,
        trace w' = trace example_world
          ++ EvTerminate 0 "timeout" (timeout_message 10) :: evs
        ∧ Forall quiet_event evs.
Proof.
  exact (check_timeout_waiting example_wrapper 10 example_world
           eq_refl eq_refl example_world_ok).
Defined.

Lemma example_wrapper_not_alive :
  proc_state example_world (process example_wrapper) ≠ Alive.
Proof. vm_compute. discriminate. Qed.

Lemma terminate_not_alive_example :
  ∃ w' evs,
    terminate example_wrapper "error" "m" example_world = (Ok tt, w')
    ∧ trace w' = trace example_world
        ++ EvTerminate 0 "error" "m" :: EvCommitTermination "u" "r"
        :: EvGet "u" "r" :: evs
    ∧ Forall logger_event evs
    ∧ proc_state w' 0 = proc_state example_world 0
    ∧ (∀ d e, store example_world !! ("u", "r") = Some (d, e) →
         ∃ d', store w' !! ("u", "r") = Some (d', 864000)
               ∧ response_model d' !! "status" = Some (VStr "error"))
    ∧ store_ok w'.
Proof.
  exact (terminate_not_alive example_wrapper "error" "m" example_world
           example_wrapper_not_alive example_world_ok).
Defined.

(** ** Manager *)

(** A job submitted and the manager stopped before the job was started: the
    waiting wrapper is terminated with status "error" and never started. *)
Lemma stop_terminates_all_example :
  ∃ w' evs,
    loop_body example_config stop_message [] [example_wrapper] example_world
    = (Ok (Return, ([], [example_wrapper])), w')
    ∧ trace w' = trace example_world ++ evs ++ [EvQueueClose]
    ∧ terminate_calls evs
      = [] ++ [(0%nat, "error",
                "Waiting process was terminated by server shutdown.")]
    ∧ Forall no_start_no_close evs
    ∧ ∀ fuel w0,
        queue_get w0 = (Ok stop_message, example_world) →
        manager_loop example_config (S fuel) [] [example_wrapper] w0
        = (Ok (Return, ([], [example_wrapper])), w').
Proof.
  exact (stop_terminates_all example_config [] [example_wrapper]
           example_world example_world_ok).
Defined.

(** [enqueue_job("STOP", func, context)]: a submission whose timeout is the
    string "STOP" is taken for the STOP command; no wrapper is made, the
    queue is closed and the manager returns. *)

Lemma submission_taken_for_stop :
  is_submission stop_timeout_job = Ok true
  ∧ loop_body example_config stop_timeout_job [] [] example_world
    = (Ok (Return, ([], [])), set_trace [EvQueueClose] example_world).
Proof. split; reflexivity. Qed.

Lemma submission_enqueued_example :
  is_stop_command
    (job_message (T:=Z) (VNum 10) (VFunc 0) [VContext (example_context "r")])
  = Ok false
  ∧ submit
      (job_message (VNum 10) (VFunc 0) [VContext (example_context "r")])
      [] example_world
    = (Ok [{| process := 1; timeout := VNum 10; config := example_config;
              resource_id := "r"; user_id := "u"; init_time := 1000;
              started := false |}],
       set_reads 1 (set_next_oid 2
         (set_procs (<[1%nat := Initial]> (procs example_world)) example_world)))
  ∧ dispatch_then_admission example_config
      (job_message (VNum 10) (VFunc 0) [VContext (example_context "r")])
      [] [] example_world
    = (sets <- admission example_config []
                 [{| process := 1; timeout := VNum 10; config := example_config;
                     resource_id := "r"; user_id := "u"; init_time := 1000;
                     started := false |}] ;;
       ret (Continue, sets))
        (set_reads 1 (set_next_oid 2
           (set_procs (<[1%nat := Initial]> (procs example_world)) example_world))).
Proof.
  exact (submission_enqueued example_config (VNum 10) (VFunc 0)
           (example_context "r") [] [] [] example_world eq_refl eq_refl).
Defined.

(** A number on the queue: ["STOP" in 5] raises. *)
Lemma number_message_raises :
  is_stop_command (VNum 5 : pyval Z) ≠ Ok true
  ∧ is_submission (VNum 5 : pyval Z) ≠ Ok true
  ∧ loop_body example_config (VNum 5) [] [example_wrapper] example_world
    = (Raise TypeError, example_world).
Proof. repeat split; discriminate. Qed.

Lemma other_message_dropped_example :
  dispatch_then_admission example_config (VStr "hello") [] [example_wrapper]
    example_world
  = (sets <- admission example_config [] [example_wrapper] ;;
     ret (Continue, sets)) example_world
  ∧ loop_body example_config (VStr "hello") [] [example_wrapper] example_world
    = loop_body example_config VNone [] [example_wrapper] example_world.
Proof.
  exact (other_message_dropped example_config (VStr "hello") []
           [example_wrapper] example_world eq_refl eq_refl).
Defined.

(** In the sixth iteration both workers are free and two jobs wait: the
    admission step starts one of them and leaves the other waiting. *)
Lemma admission_leaves_worker_free :
  match manager_loop example_config 5 [] [] busy_world with
  | (Ok (Continue, (running, waiting)), w) =>
      length running = 0%nat ∧ length waiting = 2%nat ∧
      match queue_get w with
      | (Ok data, w1) =>
          match dispatch_then_admission example_config data running waiting w1 with
          | (Ok (Continue, (running', waiting')), _) =>
              ¬ (NUMBER_OF_WORKERS example_config ≤ Z.of_nat (length running')
                 ∨ waiting' = [])
          | _ => False
          end
      | _ => False
      end
  | _ => False
  end.
Proof.
  vm_compute. split; [reflexivity|]. split; [reflexivity|].
  intros [Hfull|Hempty]; [by apply Hfull | discriminate Hempty].
Qed.

Lemma admission_one_per_iteration_example :
  ∃ i p,
    [example_wrapper] !! i = Some p
    ∧ admission example_config [] [example_wrapper] example_world
      = (Ok (set_add (set_started true p) [], delete i [example_wrapper]),
         set_trace (trace example_world ++ [EvStart (process p)])
           (set_procs (<[process p := Alive]> (procs example_world))
              example_world)).
Proof.
  refine (admission_one_per_iteration example_config [] [example_wrapper]
            example_world _).
  repeat constructor.
Defined.

Lemma running_bounded_after_admission_example :
  Z.of_nat (length (sets_of busy_6).1) ≤ NUMBER_OF_WORKERS example_config.
Proof.
  apply (running_bounded_after_admission example_config 5 busy_world
           (sets_of busy_5).1 (sets_of busy_5).2 busy_5.2 VNone
           (queue_get busy_5.2).2 Continue
           (sets_of busy_6).1 (sets_of busy_6).2 busy_6.2).
  - vm_compute. discriminate.
  - vm_compute. reflexivity.
  - vm_compute. reflexivity.
  - vm_compute. reflexivity.
Defined.

Lemma reap_removes_finished_example :
  reap reap_running reap_world
  = (Ok (filter (λ p, ¬ (started p = true ∧ is_Some (exit_code reap_world p)))
           reap_running),
     reap_world).
Proof.
  apply (reap_removes_finished reap_running reap_world).
  cbn. apply NoDup_cons. split; [|apply NoDup_singleton].
  intros Hin%list_elem_of_singleton. discriminate Hin.
Defined.

(** ** Scenarios *)

Example str_contains_inside : str_contains "STOP" "NONSTOP!" = true.
Proof. reflexivity. Qed.

Example str_contains_part : str_contains "STOP" "STO P" = false.
Proof. reflexivity. Qed.

(** One worker, two jobs: the first runs, the second waits. *)
Example one_worker_two_jobs :
  match manager_loop
          {| NUMBER_OF_WORKERS := 1; REDIS_RESOURCE_EXPIRE_TIME := 864000 |}
          3 [] []
          (set_incoming [example_job "x"; example_job "y"]
             (set_next_oid 0 (set_procs ∅ example_world))) with
  | (Ok (Continue, (running, waiting)), w) =>
      process <$> running = [0%nat] ∧ process <$> waiting = [1%nat]
      ∧ started_processes (trace w) = [0%nat]
  | _ => False
  end.
Proof. vm_compute. done. Qed.

(** Two workers busy, a third job with timeout 0: it is terminated with
    status "timeout" in the iteration that received it, and never
    started. *)
Example saturated_job_times_out :
  match manager_loop example_config 3 [] []
          (set_incoming
             [example_job "a"; example_job "b";
              job_message (VNum 0) (VFunc 0) [VContext (example_context "z")]]
             (set_next_oid 0 (set_procs ∅ example_world))) with
  | (Ok (Continue, (running, waiting)), w) =>
      process <$> running = [0%nat; 1%nat] ∧ waiting = []
      ∧ started_processes (trace w) = [0%nat; 1%nat]
      ∧ terminate_calls (trace w)
        = [(2%nat, "timeout",
            "Processes exceeded timeout (0) in waiting queue and was terminated.")]
  | _ => False
  end.
Proof. vm_compute. done. Qed.

(** A job that is still running after the grace period is killed; one that
    ends within it is not. *)
Example terminate_kills_running_job :
  killed_processes
    (trace (terminate (set_started true example_wrapper) "error" "m"
              (set_procs {[ 0%nat := Alive ]} example_world)).2)
  = [0%nat].
Proof. reflexivity. Qed.

Example terminate_spares_job_that_ends :
  killed_processes
    (trace (terminate (set_started true example_wrapper) "error" "m"
              (set_procs {[ 0%nat := Alive ]}
                 {| oracle := busy_oracle; reads := 0; pauses := 4;
                    incoming := []; next_oid := 1; procs := ∅;
                    store := store example_world; trace := [] |})).2)
  = [].
Proof. reflexivity. Qed.

(** The whole manager on a job followed by STOP: the job is started in
    the first iteration, terminated in the second, and the queue is closed
    by the STOP branch and again by [finally]. *)
Example manager_on_stop :
  match start_process_queue_manager example_config 5
          (set_incoming [example_job "r"; stop_message]
             (set_next_oid 0 (set_procs ∅ example_world))) with
  | (Ok (Return, (running, waiting)), w) =>
      process <$> running = [0%nat] ∧ waiting = []
      ∧ terminate_calls (trace w)
        = [(0%nat, "error",
            "Running process was terminated by server shutdown.")]
      ∧ killed_processes (trace w) = [0%nat]
      ∧ (fst <$> store w !! ("u", "r"))
          ≫= (λ d, response_model d !! "status") = Some (VStr "error")
      ∧ queue_closes (trace w) = 2%nat
  | _ => False
  end.
Proof. vm_compute. done. Qed.

(** ** Further instances *)

Lemma send_resource_update_malformed_example :
  ∃ w',
    _send_resource_update example_wrapper "error" "m" broken_world
    = (Raise KeyError, w')
    ∧ store w' = store broken_world
    ∧ trace w' = trace broken_world ++ [EvGet "u" "r"].
Proof.
  exact (send_resource_update_malformed example_wrapper "error" "m"
           broken_world broken_document 864000 eq_refl eq_refl).
Defined.

Lemma alive_world_ok : store_ok alive_world.
Proof. exact example_world_ok. Qed.


(** The string "NONSTOP" on the queue stops the manager. *)
Lemma contains_stop_shuts_down_example :
  loop_body example_config (VStr "NONSTOP") [] [example_wrapper] example_world
  = loop_body example_config stop_message [] [example_wrapper] example_world.
Proof.
  apply (contains_stop_shuts_down example_config (VStr "NONSTOP") []
           [example_wrapper] example_world).
  left. by exists "NON", "".
Defined.

(** [enqueue_job(10, func)], without a context. *)
Lemma malformed_submission_raises_example :
  ∃ w',
    loop_body example_config (job_message (VNum 10) (VFunc 0) [])
      [] [] example_world
    = (Raise IndexError, w')
    ∧ trace w' = trace example_world
    ∧ store w' = store example_world.
Proof.
  exact (malformed_submission_raises example_config (VNum 10) (VFunc 0) []
           [] [] example_world eq_refl eq_refl I).
Defined.

(** A number on the queue ends the manager in its first iteration; the job
    behind it is never read. *)
Lemma manager_outcome_final_example :
  start_process_queue_manager example_config 4 number_world
  = (Raise TypeError,
     set_trace
       (trace (manager_loop example_config 1 [] [] number_world).2
        ++ [EvQueueClose])
       (manager_loop example_config 1 [] [] number_world).2)
  ∧ incoming (manager_loop example_config 1 [] [] number_world).2
    = [example_job "a"].
Proof.
  split; [|reflexivity].
  apply (manager_outcome_final example_config 1 4 number_world).
  - reflexivity.
  - exact I.
  - lia.
Defined.

Lemma admission_never_raises_example :
  ∃ sets w3,
    admission example_config (sets_of busy_5).1 (sets_of busy_5).2
      (queue_get busy_5.2).2
    = (Ok sets, w3).
Proof.
  apply (admission_never_raises example_config 5 busy_world
           (sets_of busy_5).1 (sets_of busy_5).2 busy_5.2 VNone
           (queue_get busy_5.2).2 (sets_of busy_5).2 (queue_get busy_5.2).2).
  - vm_compute. reflexivity.
  - vm_compute. reflexivity.
  - left. split; reflexivity.
Defined.

Lemma manager_sets_partition_example :
  NoDup (process <$> ((sets_of busy_5).1 ++ (sets_of busy_5).2))
  ∧ Forall (λ p, started p = true) (sets_of busy_5).1
  ∧ Forall (λ p, started p = false
                 ∧ proc_state busy_5.2 (process p) = Initial)
      (sets_of busy_5).2.
Proof.
  apply (manager_sets_partition example_config 5 busy_world Continue).
  vm_compute. reflexivity.
Defined.

(** The example wrapper has waited 100 with a timeout of 10: the purge
    terminates and removes it. *)
Lemma evict_terminates_removed_example :
  ∃ evicted w' evs,
    evict [example_wrapper] example_world
    = (Ok (filter (λ p, process p ∉ process <$> evicted) [example_wrapper]),
       w')
    ∧ evicted `sublist_of` [example_wrapper]
    ∧ trace w' = trace example_world ++ evs
    ∧ terminate_calls evs
      = (λ p, (process p, "timeout", timeout_text p)) <$> evicted
    ∧ Forall no_start_no_close evs
    ∧ Forall (waited true example_world w') evicted
    ∧ Forall (waited false example_world w')
        (filter (λ p, process p ∉ process <$> evicted) [example_wrapper]).
Proof.
  apply (evict_terminates_removed [example_wrapper] example_world
           example_world_ok).
  - apply Forall_singleton. split; [reflexivity|]. by exists 10.
  - apply NoDup_singleton.
Defined.

Example evict_example_result :
  (evict [example_wrapper] example_world).1 = Ok [].
Proof. reflexivity. Qed.


(** ** [StreamToLogger] on small texts *)

Example unit_separator_is_space_not_boundary :
  is_space 31 = true ∧ is_linebreak 31 = false.
Proof. done. Qed.

Example zero_width_space_is_not_space : is_space 8203 = false.
Proof. done. Qed.

Example splitlines_newline_at_end :
  splitlines [97; 98; 10]%N = [[97; 98]]%N.
Proof. reflexivity. Qed.

Example splitlines_crlf :
  splitlines [97; 13; 10; 98]%N = [[97]; [98]]%N.
Proof. reflexivity. Qed.

Example splitlines_lf_cr :
  splitlines [97; 10; 13; 98]%N = [[97]; []; [98]]%N.
Proof. reflexivity. Qed.

Example splitlines_only_crlf : splitlines [13; 10]%N = [[]].
Proof. reflexivity. Qed.

Example splitlines_empty_lines :
  splitlines [97; 10; 10]%N = [[97]; []]%N.
Proof. reflexivity. Qed.

Example rstrip_inner_space_kept :
  rstrip [32; 97; 32; 98; 32; 9; 10]%N = [32; 97; 32; 98]%N.
Proof. reflexivity. Qed.

(** [print("job 1 ")] writes the text and then "\n": one call in all. *)
Example write_print :
  write stdout_stream [10]%N (write stdout_stream (job_text ++ [32]%N) [])
  = [{| call_logger := "stdout_logger"; call_level := 20;
        call_message := job_text |}].
Proof. reflexivity. Qed.

Lemma write_ignores_trailing_space_example :
  write stdout_stream (job_text ++ [32; 9; 10]%N) []
  = write stdout_stream job_text [].
Proof.
  exact (write_ignores_trailing_space stdout_stream job_text [32; 9; 10]%N []
           eq_refl).
Defined.

Lemma write_one_line_example :
  write stdout_stream (job_text ++ [32]%N) []
  = [] ++ [{| call_logger := "stdout_logger"; call_level := 20;
              call_message := rstrip (job_text ++ [32]%N) |}].
Proof.
  apply (write_one_line stdout_stream (job_text ++ [32]%N) []).
  - repeat constructor.
  - reflexivity.
Defined.
